(** * Toolbar icon generator of vib-OS: a shallow embedding

    Source: [kernel/gui/generate_toolbar_icons.py].  The script draws eight
    toolbar icons with the Pillow imaging library, packs every pixel into
    one 32-bit word and prints a C header on standard output.

    Python integers are modelled as [Z], Python strings as [string], lists
    as [list]; an uncaught exception is [None] in the option monad.  The
    Pillow rasteriser is not part of the repository: it enters the
    development through the interface [Rasteriser], which decides whether
    a drawing primitive is carried out and which pixels it sets. *)

From Stdlib Require Import ZArith Lia Ascii String DecimalString.
From stdpp Require Import base tactics option list numbers strings.

Local Open Scope Z_scope.

(** ** Python built-ins used by the script *)

Module Py.

(** [range(n)]: [0, 1, ..., n-1]; empty when [n <= 0]. *)
Definition range (n : Z) : list Z := Z.of_nat <$> seq 0 (Z.to_nat n).

(** [seq[i]] on a list: negative indices count from the end, anything
    outside the list raises [IndexError]. *)
Definition getitem {A} (l : list A) (i : Z) : option A :=
  let n := Z.of_nat (length l) in
  if bool_decide (0 <= i) then l !! Z.to_nat i
  else if bool_decide (0 <= n + i) then l !! Z.to_nat (n + i)
  else None.

(** [sep.join(parts)] *)
Fixpoint join (sep : string) (parts : list string) : string :=
  match parts with
  | [] => ""
  | [s] => s
  | s :: rest => s +:+ sep +:+ join sep rest
  end.

(** [str(n)] / [f"{n}"] for an integer. *)
Definition str (n : Z) : string := NilZero.string_of_int (Z.to_int n).

(** One upper-case hexadecimal digit. *)
Definition hex_digit (d : Z) : ascii :=
  if d <? 10 then ascii_of_nat (Z.to_nat (48 + d))
  else ascii_of_nat (Z.to_nat (55 + d)).

(** The digits of [n >= 0] in base 16, most significant first, without
    leading zeros ([0] prints as one digit). *)
Fixpoint hex_upper_go (fuel : nat) (n : Z) (acc : string) : string :=
  let acc' := String (hex_digit (n mod 16)) acc in
  match fuel with
  | O => acc'
  | S fuel' => if n / 16 =? 0 then acc' else hex_upper_go fuel' (n / 16) acc'
  end.

Definition hex_upper (n : Z) : string :=
  hex_upper_go (Z.to_nat (Z.log2 n)) n "".

Fixpoint zeros (k : nat) : string :=
  match k with
  | O => ""
  | S k' => String "0" (zeros k')
  end.

(** Zero padding on the left up to width [w]; a longer [s] is kept. *)
Definition zfill (w : nat) (s : string) : string :=
  zeros (w - String.length s) +:+ s.

(** [f"{n:08X}"] for [n >= 0]; a negative [n] prints its sign first and
    pads the magnitude to seven places. *)
Definition format_08X (n : Z) : string :=
  if n <? 0 then "-" +:+ zfill 7 (hex_upper (- n))
  else zfill 8 (hex_upper n).

End Py.

(** ** Pixels and their packed form *)

(** An RGBA pixel as [getdata()] returns it: the tuple [(r, g, b, a)]. *)
Definition RGBA : Type := Z * Z * Z * Z.

Definition channel_ok (c : Z) : Prop := 0 <= c <= 255.

Definition rgba_ok (p : RGBA) : Prop :=
  let '(r, g, b, a) := p in
  channel_ok r /\ channel_ok g /\ channel_ok b /\ channel_ok a.

(** Line 135: [pixel = (a << 24) | (r << 16) | (g << 8) | b]. *)
Definition pack (p : RGBA) : Z :=
  let '(r, g, b, a) := p in
  Z.lor (Z.lor (Z.lor (Z.shiftl a 24) (Z.shiftl r 16)) (Z.shiftl g 8)) b.

(** The inverse bit layout named by the specification: alpha in bits
    24-31, red in 16-23, green in 8-15, blue in 0-7. *)
Definition unpack (w : Z) : RGBA :=
  (Z.land (Z.shiftr w 16) 255,
   Z.land (Z.shiftr w 8) 255,
   Z.land w 255,
   Z.land (Z.shiftr w 24) 255).

(** Line 136: the literal appended to the row. *)
Definition literal (p : RGBA) : string := "0x" +:+ Py.format_08X (pack p).

(** ** The Pillow image model

    [Image.new], [ImageDraw.Draw] and the drawing calls belong to Pillow,
    which is not part of the repository.  An image is its size and the
    sequence [getdata()] returns.  The drawing calls are modelled through
    one interface, [rasterise]: for a primitive it either answers [None]
    (Pillow raises, e.g. for a bounding box it rejects) or the set of
    pixel coordinates the primitive sets.  The script leaves every
    [ImageDraw] at its defaults, so a set pixel receives exactly the fill
    colour, and pixels outside the set keep their value. *)

Record Image := mkImage { width : Z; height : Z; data : list RGBA }.

Inductive Shape :=
| Line (xy : list (Z * Z)) (stroke : Z)
| Arc (bbox : Z * Z * Z * Z) (start finish : Z) (stroke : Z)
| Polygon (xy : list (Z * Z))
| Rectangle (bbox : Z * Z * Z * Z) (stroke : Z).

Class Rasteriser := rasterise : Shape -> option (Z -> Z -> bool).

Definition transparent : RGBA := (0, 0, 0, 0).
Definition white : RGBA := (255, 255, 255, 255).

(** [Image.new('RGBA', (w, h), color)]; a negative side raises
    [ValueError]. *)
Definition Image_new (size : Z * Z) (color : RGBA) : option Image :=
  let '(w, h) := size in
  if bool_decide (0 <= w /\ 0 <= h)
  then Some (mkImage w h (replicate (Z.to_nat (w * h)) color))
  else None.

(** [img.convert('RGBA')] on an image that is already RGBA: a copy. *)
Definition convert_RGBA (img : Image) : Image := img.

(** Pixel [i] of the data sequence sits at column [i mod width], row
    [i / width]. *)
Definition paint (mask : Z -> Z -> bool) (ink : RGBA) (img : Image) : Image :=
  mkImage (width img) (height img)
    (imap (fun i p =>
             if mask (Z.of_nat i `mod` width img) (Z.of_nat i `div` width img)
             then ink else p)
          (data img)).

Section Drawing.
Context `{Rasteriser}.

(** One drawing call on the [ImageDraw] bound to [img]; the in-place
    update is threaded as the returned image. *)
Definition draw (img : Image) (s : Shape) (ink : RGBA) : option Image :=
  mask ← rasterise s; Some (paint mask ink img).

Definition draw_line img xy fill stroke := draw img (Line xy stroke) fill.
Definition draw_arc img bbox start finish fill stroke :=
  draw img (Arc bbox start finish stroke) fill.
Definition draw_polygon img xy fill := draw img (Polygon xy) fill.
Definition draw_rectangle img bbox outline stroke :=
  draw img (Rectangle bbox stroke) outline.

(** ** The eight render functions (lines 31-120) *)

Definition render_chevron_left (size : Z) : option Image :=
  img ← Image_new (size, size) (0, 0, 0, 0);
  let cx := size `div` 2 in
  let cy := size `div` 2 in
  let points := [(cx + 4, cy - 7); (cx - 4, cy); (cx + 4, cy + 7)] in
  img ← draw_line img points (255, 255, 255, 255) 3;
  Some img.

Definition render_chevron_right (size : Z) : option Image :=
  img ← Image_new (size, size) (0, 0, 0, 0);
  let cx := size `div` 2 in
  let cy := size `div` 2 in
  let points := [(cx - 4, cy - 7); (cx + 4, cy); (cx - 4, cy + 7)] in
  img ← draw_line img points (255, 255, 255, 255) 3;
  Some img.

Definition render_rotate_cw (size : Z) : option Image :=
  img ← Image_new (size, size) (0, 0, 0, 0);
  img ← draw_arc img (4, 4, size - 4, size - 4) 45 315 (255, 255, 255, 255) 2;
  img ← draw_polygon img [(size - 6, 6); (size - 3, 10); (size - 10, 8)]
                     (255, 255, 255, 255);
  Some img.

Definition render_rotate_ccw (size : Z) : option Image :=
  img ← Image_new (size, size) (0, 0, 0, 0);
  img ← draw_arc img (4, 4, size - 4, size - 4) 225 495 (255, 255, 255, 255) 2;
  img ← draw_polygon img [(6, 6); (10, 3); (8, 10)] (255, 255, 255, 255);
  Some img.

Definition render_zoom_in (size : Z) : option Image :=
  img ← Image_new (size, size) (0, 0, 0, 0);
  let cx := size `div` 2 in
  let cy := size `div` 2 in
  img ← draw_line img [(cx - 6, cy); (cx + 6, cy)] (255, 255, 255, 255) 3;
  img ← draw_line img [(cx, cy - 6); (cx, cy + 6)] (255, 255, 255, 255) 3;
  Some img.

Definition render_zoom_out (size : Z) : option Image :=
  img ← Image_new (size, size) (0, 0, 0, 0);
  let cx := size `div` 2 in
  let cy := size `div` 2 in
  img ← draw_line img [(cx - 6, cy); (cx + 6, cy)] (255, 255, 255, 255) 3;
  Some img.

Definition render_fit (size : Z) : option Image :=
  img ← Image_new (size, size) (0, 0, 0, 0);
  img ← draw_rectangle img (4, 4, size - 5, size - 5) (255, 255, 255, 255) 2;
  img ← draw_line img [(4, 4); (10, 10)] (255, 255, 255, 255) 2;
  img ← draw_line img [(size - 5, size - 5); (size - 11, size - 11)]
                  (255, 255, 255, 255) 2;
  Some img.

Definition render_fullscreen (size : Z) : option Image :=
  img ← Image_new (size, size) (0, 0, 0, 0);
  img ← draw_line img [(2, 8); (2, 2); (8, 2)] (255, 255, 255, 255) 2;
  img ← draw_line img [(size - 9, 2); (size - 3, 2); (size - 3, 8)]
                  (255, 255, 255, 255) 2;
  img ← draw_line img [(2, size - 9); (2, size - 3); (8, size - 3)]
                  (255, 255, 255, 255) 2;
  img ← draw_line img [(size - 9, size - 3); (size - 3, size - 3); (size - 3, size - 9)]
                  (255, 255, 255, 255) 2;
  Some img.

End Drawing.

(** ** The array emitter (lines 122-140) *)

(** A [for] loop whose body may raise: the loop state is threaded through
    the iterations and the first exception ends the loop. *)
Fixpoint for_in {A S : Type} (xs : list A) (body : S -> A -> option S) (s : S)
  : option S :=
  match xs with
  | [] => Some s
  | x :: xs' => s' ← body s x; for_in xs' body s'
  end.

(** [lst.append(x)] *)
Definition append {A} (lst : list A) (x : A) : list A := lst ++ [x].

Definition nl : string := String (ascii_of_nat 10) "".
Definition dquote : string := String (ascii_of_nat 34) "".

(** Lines 132-136: the inner loop filling [row] for image row [y]. *)
Definition pack_row (pixels : list RGBA) (w y : Z) : option (list string) :=
  for_in (Py.range w)
         (fun row x =>
            p ← Py.getitem pixels (y * w + x);
            Some (append row (literal p)))
         [].

(** Lines 124-139: the list [lines] just before it is joined. *)
Definition image_to_c_array_lines (img : Image) (name : string)
  : option (list string) :=
  let img := convert_RGBA img in
  let pixels := data img in
  let lines :=
    ["/* " +:+ name +:+ " - " +:+ Py.str (width img) +:+ "x"
      +:+ Py.str (height img) +:+ " RGBA icon */"] in
  let lines :=
    append lines ("static const uint32_t " +:+ name +:+ "["
                  +:+ Py.str (width img * height img) +:+ "] = {") in
  lines ← for_in (Py.range (height img))
                 (fun lines y =>
                    row ← pack_row pixels (width img) y;
                    Some (append lines ("    " +:+ Py.join ", " row +:+ ",")))
                 lines;
  let lines := append lines "};" in
  Some lines.

Definition image_to_c_array (img : Image) (name : string) : option string :=
  Py.join nl <$> image_to_c_array_lines img name.

(** ** [main] (lines 142-194) *)

(** The module-level names of the script. *)
Record Globals := mkGlobals {
  ICON_SIZE : Z;
  ICONS : list (string * string)
}.

Definition module_globals : Globals :=
  mkGlobals 24
    [("icon_prev", "prev.png"); ("icon_next", "next.png");
     ("icon_rotate_cw", "rotate_cw.png"); ("icon_rotate_ccw", "rotate_ccw.png");
     ("icon_zoom_in", "zoom_in.png"); ("icon_zoom_out", "zoom_out.png");
     ("icon_fit", "fit.png"); ("icon_fullscreen", "fullscreen.png")]%string.

(** Lines 183-190: the index constants are eight literal lines. *)
Definition index_constants : list string :=
  ["#define TOOLBAR_ICON_PREV 0";
   "#define TOOLBAR_ICON_NEXT 1";
   "#define TOOLBAR_ICON_ROTATE_CW 2";
   "#define TOOLBAR_ICON_ROTATE_CCW 3";
   "#define TOOLBAR_ICON_ZOOM_IN 4";
   "#define TOOLBAR_ICON_ZOOM_OUT 5";
   "#define TOOLBAR_ICON_FIT 6";
   "#define TOOLBAR_ICON_FULLSCREEN 7"]%string.

(** Lines 157-192: the list [output] built from [size] and [icons]. *)
Definition main_output (size : Z) (icons : list (string * Image))
  : option (list string) :=
  let output := [] in
  let output := append output "/*" in
  let output := append output " * Toolbar Icons for vib-OS Image Viewer" in
  let output := append output " * Auto-generated 24x24 RGBA icons" in
  let output := append output " */" in
  let output := append output "" in
  let output := append output "#ifndef TOOLBAR_ICONS_H" in
  let output := append output "#define TOOLBAR_ICONS_H" in
  let output := append output "" in
  let output := append output ("#include " +:+ dquote +:+ "types.h" +:+ dquote) in
  let output := append output "" in
  let output := append output ("#define TOOLBAR_ICON_SIZE " +:+ Py.str size) in
  let output := append output "" in
  output ← for_in icons
                  (fun output '(name, img) =>
                     decl ← image_to_c_array img name;
                     let output := append output decl in
                     Some (append output ""))
                  output;
  let output := append output "/* Icon array for toolbar */" in
  let output := append output "static const uint32_t* toolbar_icons[] = {" in
  output ← for_in icons
                  (fun output '(name, _) =>
                     Some (append output ("    " +:+ name +:+ ",")))
                  output;
  let output := append output "};" in
  let output := append output "" in
  let output := append output "#define TOOLBAR_ICON_PREV 0" in
  let output := append output "#define TOOLBAR_ICON_NEXT 1" in
  let output := append output "#define TOOLBAR_ICON_ROTATE_CW 2" in
  let output := append output "#define TOOLBAR_ICON_ROTATE_CCW 3" in
  let output := append output "#define TOOLBAR_ICON_ZOOM_IN 4" in
  let output := append output "#define TOOLBAR_ICON_ZOOM_OUT 5" in
  let output := append output "#define TOOLBAR_ICON_FIT 6" in
  let output := append output "#define TOOLBAR_ICON_FULLSCREEN 7" in
  let output := append output "" in
  let output := append output "#endif /* TOOLBAR_ICONS_H */" in
  Some output.

(** Line 194: the argument of [print]. *)
Definition main_emit (size : Z) (icons : list (string * Image)) : option string :=
  Py.join nl <$> main_output size icons.

(** ** A run of the script

    What a run meets outside the script: whether [from PIL import Image]
    succeeds, whether [pip3 install pillow] makes it succeed, and the
    files on disk. *)
Record World := mkWorld {
  pil_importable : bool;
  pip_installs_pil : bool;
  files : string -> option (list Z)
}.

Inductive Status := Exit_ok | Uncaught_exception.

(** [stdout] is the text the script itself writes with [print]. *)
Record Outcome := mkOutcome { stdout : string; status : Status }.

(** [print(s)] writes [s] and a newline. *)
Definition print (out : string) (s : string) : string := out +:+ s +:+ nl.

(** Lines 10-15: the import with its fallback.  Returns the output so
    far, or the outcome of a run that ends here. *)
Definition import_PIL (w : World) (out : string) : string + Outcome :=
  if pil_importable w then inl out
  else
    let out := print out "PIL not found. Installing..." in
    if pip_installs_pil w then inl out
    else inr (mkOutcome out Uncaught_exception).

Section Main.
Context `{Rasteriser}.

(** Lines 146-155: the list [icons]; the render calls run left to
    right and the first one that raises ends [main]. *)
Definition main_icons (size : Z) : option (list (string * Image)) :=
  i0 ← render_chevron_left size;
  i1 ← render_chevron_right size;
  i2 ← render_rotate_cw size;
  i3 ← render_rotate_ccw size;
  i4 ← render_zoom_in size;
  i5 ← render_zoom_out size;
  i6 ← render_fit size;
  i7 ← render_fullscreen size;
  Some [("toolbar_icon_prev", i0);
        ("toolbar_icon_next", i1);
        ("toolbar_icon_rotate_cw", i2);
        ("toolbar_icon_rotate_ccw", i3);
        ("toolbar_icon_zoom_in", i4);
        ("toolbar_icon_zoom_out", i5);
        ("toolbar_icon_fit", i6);
        ("toolbar_icon_fullscreen", i7)]%string.

(** [main()]: the text handed to [print], or [None] when an exception
    escapes before [print] is reached. *)
Definition main (g : Globals) : option string :=
  let size := ICON_SIZE g in
  icons ← main_icons size;
  main_emit size icons.

(** Lines 196-197 after the module body has been executed. *)
Definition run (g : Globals) (w : World) : Outcome :=
  match import_PIL w "" with
  | inr failed => failed
  | inl out =>
      match main g with
      | Some text => mkOutcome (print out text) Exit_ok
      | None => mkOutcome out Uncaught_exception
      end
  end.

End Main.

(** ** The standard output of the process

    [stdout] of [run] holds what the script itself prints.  The stream a
    caller captures carries more: line 14 runs [pip3] as a child on the
    same standard output.  What [pip3] writes there, and whether Python
    buffers its own output in blocks (a pipe or a file) or hands every
    line on at once (a terminal), belong to the surroundings of a run. *)
Record Console := mkConsole {
  pip_prints : string;
  block_buffered : bool
}.

(** The stream: [written] has reached standard output, [pending] still
    sits in Python's buffer.  The notice is far shorter than the buffer,
    so under block buffering it is still pending when [pip3] runs; the
    script's own text keeps its order. *)
Record Stream := mkStream { written : string; pending : string }.

(** [print(s)] *)
Definition stream_print (c : Console) (o : Stream) (s : string) : Stream :=
  if block_buffered c
  then mkStream (written o) (pending o +:+ s +:+ nl)
  else mkStream (written o +:+ pending o +:+ s +:+ nl) "".

(** A child process writes straight to the stream. *)
Definition stream_child (o : Stream) (text : string) : Stream :=
  mkStream (written o +:+ text) (pending o).

(** At exit, also after an uncaught exception, the buffer is flushed. *)
Definition stream_close (o : Stream) : string := written o +:+ pending o.

(** Lines 10-15 on the stream. *)
Definition import_PIL_stream (w : World) (c : Console) (o : Stream)
  : Stream + Outcome :=
  if pil_importable w then inl o
  else
    let o := stream_print c o "PIL not found. Installing..." in
    let o := stream_child o (pip_prints c) in
    if pip_installs_pil w then inl o
    else inr (mkOutcome (stream_close o) Uncaught_exception).

Section Process.
Context `{Rasteriser}.

(** A run of the script as its caller sees it: the whole text on
    standard output and the exit status. *)
Definition process (g : Globals) (w : World) (c : Console) : Outcome :=
  match import_PIL_stream w c (mkStream "" "") with
  | inr failed => failed
  | inl o =>
      match main g with
      | Some text => mkOutcome (stream_close (stream_print c o text)) Exit_ok
      | None => mkOutcome (stream_close o) Uncaught_exception
      end
  end.

End Process.

(** * Vocabulary of the specification *)

(** The invariant of a PixelSurface as Pillow hands it over: as many
    pixels as [width * height]. *)
Definition well_formed (img : Image) : Prop :=
  0 <= width img /\ 0 <= height img /\
  Z.of_nat (length (data img)) = width img * height img.

(** [getpixel((x, y))] read off the data sequence. *)
Definition pixel_at (img : Image) (x y : Z) : option RGBA :=
  data img !! Z.to_nat (y * width img + x).

(** Row [y] of the stored pixels, and all rows top to bottom. *)
Definition row_pixels (img : Image) (y : Z) : list RGBA :=
  take (Z.to_nat (width img)) (drop (Z.to_nat (y * width img)) (data img)).

Definition rows (img : Image) : list (list RGBA) :=
  row_pixels img <$> Py.range (height img).

(** The text pieces of one array declaration. *)
Definition comment_line (name : string) (w h : Z) : string :=
  "/* " +:+ name +:+ " - " +:+ Py.str w +:+ "x" +:+ Py.str h +:+ " RGBA icon */".

Definition declaration_line (name : string) (count : Z) : string :=
  "static const uint32_t " +:+ name +:+ "[" +:+ Py.str count +:+ "] = {".

Definition row_line (row : list RGBA) : string :=
  "    " +:+ Py.join ", " (literal <$> row) +:+ ",".

Definition declaration_text (icon : string * Image) : string :=
  let '(name, img) := icon in
  Py.join nl ([comment_line name (width img) (height img);
               declaration_line name (width img * height img)]
              ++ (row_line <$> rows img) ++ ["};"]).

(** Reading a literal back: the value of one upper-case hexadecimal
    digit, of a digit string, and of a whole literal [0x...]. *)
Definition hex_value (c : ascii) : option Z :=
  let n := Z.of_nat (nat_of_ascii c) in
  if bool_decide (48 <= n <= 57) then Some (n - 48)
  else if bool_decide (65 <= n <= 70) then Some (n - 55)
  else None.

Fixpoint parse_hex (s : string) (acc : Z) : option Z :=
  match s with
  | EmptyString => Some acc
  | String c s' => d ← hex_value c; parse_hex s' (acc * 16 + d)
  end.

Definition literal_value (s : string) : option Z :=
  match s with
  | String "0" (String "x" digits) => parse_hex digits 0
  | _ => None
  end.

(** The sections (a)-(h) of the generated document, as items of the list
    that [main] joins with newlines. *)
Definition banner : list string :=
  ["/*"; " * Toolbar Icons for vib-OS Image Viewer";
   " * Auto-generated 24x24 RGBA icons"; " */"; ""].

Definition guard_opening : list string :=
  ["#ifndef TOOLBAR_ICONS_H"; "#define TOOLBAR_ICONS_H"; ""].

Definition dependency_include : list string :=
  ["#include " +:+ dquote +:+ "types.h" +:+ dquote; ""].

Definition dimension_constant (size : Z) : list string :=
  ["#define TOOLBAR_ICON_SIZE " +:+ Py.str size; ""].

Definition array_declarations (decls : list string) : list string :=
  concat ((fun d => [d; ""%string]) <$> decls).

Definition table_entry (name : string) : string := "    " +:+ name +:+ ",".

Definition lookup_table (names : list string) : list string :=
  ["/* Icon array for toolbar */"; "static const uint32_t* toolbar_icons[] = {"]
  ++ (table_entry <$> names) ++ ["};"; ""].

Definition guard_closing : list string := [""; "#endif /* TOOLBAR_ICONS_H */"].

Definition document (size : Z) (decls names consts : list string) : list string :=
  banner ++ guard_opening ++ dependency_include ++ dimension_constant size
  ++ array_declarations decls ++ lookup_table names ++ consts ++ guard_closing.

(** The index constant the specification gives the icon at position [k]:
    the identifier in upper case, defined as [k]. *)
Definition upper_ascii (c : ascii) : ascii :=
  let n := nat_of_ascii c in
  if ((97 <=? n) && (n <=? 122))%nat then ascii_of_nat (n - 32) else c.

Fixpoint upper (s : string) : string :=
  match s with
  | EmptyString => EmptyString
  | String c s' => String (upper_ascii c) (upper s')
  end.

Definition index_constant (name : string) (k : nat) : string :=
  "#define " +:+ upper name +:+ " " +:+ Py.str (Z.of_nat k).

Definition per_icon_constants (names : list string) : list string :=
  imap (fun k name => index_constant name k) names.

(** The per-icon text as the specification words it: the comment naming the icon and
    its dimensions comes after the line that opens the declaration. *)
Definition comment_follows_declaration (lines : list string) (name : string) (w h : Z)
  : Prop :=
  exists i j : nat,
    (i < j)%nat
    /\ lines !! i = Some (declaration_line name (w * h))
    /\ lines !! j = Some (comment_line name w h).

(** The document as the specification words it: section (g) holds one
    index constant per icon of the set. *)
Definition spec_document (size : Z) (icons : list (string * Image)) : list string :=
  document size (declaration_text <$> icons) (icons.*1) (per_icon_constants (icons.*1)).

(** The first line a run prints when Pillow is not importable. *)
Definition install_notice : string := "PIL not found. Installing..." +:+ nl.

(** What stands on standard output ahead of the document, or alone when
    the run fails: nothing when Pillow is importable at the start;
    otherwise the notice and the lines of [pip3], in the order in which
    they reach the stream. *)
Definition preamble (w : World) (c : Console) : string :=
  if pil_importable w then ""
  else if block_buffered c then pip_prints c +:+ install_notice
  else install_notice +:+ pip_prints c.

(** An entry of the catalog: identifier, render function, and the
    drawing calls that render function makes, in order. *)
Record IconEntry := mkEntry {
  ident : string;
  render : Z -> option Image;
  calls : Z -> list Shape
}.

Definition calls_chevron_left (size : Z) : list Shape :=
  let c := size `div` 2 in [Line [(c + 4, c - 7); (c - 4, c); (c + 4, c + 7)] 3].

Definition calls_chevron_right (size : Z) : list Shape :=
  let c := size `div` 2 in [Line [(c - 4, c - 7); (c + 4, c); (c - 4, c + 7)] 3].

Definition calls_rotate_cw (size : Z) : list Shape :=
  [Arc (4, 4, size - 4, size - 4) 45 315 2;
   Polygon [(size - 6, 6); (size - 3, 10); (size - 10, 8)]].

Definition calls_rotate_ccw (size : Z) : list Shape :=
  [Arc (4, 4, size - 4, size - 4) 225 495 2;
   Polygon [(6, 6); (10, 3); (8, 10)]].

Definition calls_zoom_in (size : Z) : list Shape :=
  let c := size `div` 2 in
  [Line [(c - 6, c); (c + 6, c)] 3; Line [(c, c - 6); (c, c + 6)] 3].

Definition calls_zoom_out (size : Z) : list Shape :=
  let c := size `div` 2 in [Line [(c - 6, c); (c + 6, c)] 3].

Definition calls_fit (size : Z) : list Shape :=
  [Rectangle (4, 4, size - 5, size - 5) 2;
   Line [(4, 4); (10, 10)] 2;
   Line [(size - 5, size - 5); (size - 11, size - 11)] 2].

Definition calls_fullscreen (size : Z) : list Shape :=
  [Line [(2, 8); (2, 2); (8, 2)] 2;
   Line [(size - 9, 2); (size - 3, 2); (size - 3, 8)] 2;
   Line [(2, size - 9); (2, size - 3); (8, size - 3)] 2;
   Line [(size - 9, size - 3); (size - 3, size - 3); (size - 3, size - 9)] 2].

Section Catalog.
Context `{Rasteriser}.

(** A transparent [size] x [size] canvas with the given primitives
    drawn on it in white, one after the other. *)
Definition canvas (size : Z) (shapes : list Shape) : option Image :=
  img ← Image_new (size, size) transparent;
  for_in shapes (fun img s => draw img s white) img.

(** The catalog [main] renders, in its order. *)
Definition catalog : list IconEntry :=
  [mkEntry "toolbar_icon_prev" render_chevron_left calls_chevron_left;
   mkEntry "toolbar_icon_next" render_chevron_right calls_chevron_right;
   mkEntry "toolbar_icon_rotate_cw" render_rotate_cw calls_rotate_cw;
   mkEntry "toolbar_icon_rotate_ccw" render_rotate_ccw calls_rotate_ccw;
   mkEntry "toolbar_icon_zoom_in" render_zoom_in calls_zoom_in;
   mkEntry "toolbar_icon_zoom_out" render_zoom_out calls_zoom_out;
   mkEntry "toolbar_icon_fit" render_fit calls_fit;
   mkEntry "toolbar_icon_fullscreen" render_fullscreen calls_fullscreen].

(** Pillow draws every primitive of the list without raising. *)
Definition accepted (shapes : list Shape) : Prop :=
  Forall (fun s => is_Some (rasterise s)) shapes.

(** No primitive of the list sets the pixel [(x, y)]. *)
Definition untouched (shapes : list Shape) (x y : Z) : Prop :=
  forall s mask, s ∈ shapes -> rasterise s = Some mask -> mask x y = false.

(** Every drawing call of a whole run at dimension [size]. *)
Definition run_calls (size : Z) : list Shape :=
  concat ((fun e => calls e size) <$> catalog).
End Catalog.

(** A small rasteriser on which the development can be evaluated: a
    primitive sets the pixels within one step of its listed points or on
    the edges of its bounding box, and a bounding box whose right or
    bottom edge lies before the left or top one is rejected, as Pillow
    rejects it with [ValueError]. *)
Definition near_points (xy : list (Z * Z)) (x y : Z) : bool :=
  existsb (fun '(px, py) => (Z.abs (x - px) <=? 1) && (Z.abs (y - py) <=? 1)) xy.

Definition on_box (bbox : Z * Z * Z * Z) (x y : Z) : bool :=
  let '(x0, y0, x1, y1) := bbox in
  (x0 <=? x) && (x <=? x1) && (y0 <=? y) && (y <=? y1)
  && ((x =? x0) || (x =? x1) || (y =? y0) || (y =? y1)).

Definition box_ordered (bbox : Z * Z * Z * Z) : bool :=
  let '(x0, y0, x1, y1) := bbox in (x0 <=? x1) && (y0 <=? y1).

Definition sample_rasteriser : Rasteriser :=
  fun s =>
    match s with
    | Line xy _ => Some (near_points xy)
    | Polygon xy => Some (near_points xy)
    | Arc bbox _ _ _ => if box_ordered bbox then Some (on_box bbox) else None
    | Rectangle bbox _ => if box_ordered bbox then Some (on_box bbox) else None
    end.


(** ** Further vocabulary for the renderer *)

(** The points a drawing call is given: the listed points of a line or
    polygon, the two corners of the bounding box of an arc or rectangle. *)
Definition vertices (s : Shape) : list (Z * Z) :=
  match s with
  | Line xy _ => xy
  | Polygon xy => xy
  | Arc (x0, y0, x1, y1) _ _ _ => [(x0, y0); (x1, y1)]
  | Rectangle (x0, y0, x1, y1) _ => [(x0, y0); (x1, y1)]
  end.

(** Every point of the call is a pixel position of an [S] x [S] surface. *)
Definition on_canvas (S : Z) (s : Shape) : Prop :=
  Forall (fun xy : Z * Z => 0 <= xy.1 < S /\ 0 <= xy.2 < S) (vertices s).

(** The bounding box of an arc or rectangle has its first corner above
    and left of its second. *)
Definition box_in_order (s : Shape) : Prop :=
  match s with
  | Arc (x0, y0, x1, y1) _ _ _ => x0 <= x1 /\ y0 <= y1
  | Rectangle (x0, y0, x1, y1) _ => x0 <= x1 /\ y0 <= y1
  | _ => True
  end.

Section Coverage.
Context `{Rasteriser}.

(** Some primitive of the list sets the pixel [(x, y)]. *)
Definition covered (shapes : list Shape) (x y : Z) : Prop :=
  exists s mask, s ∈ shapes /\ rasterise s = Some mask /\ mask x y = true.
End Coverage.

(** ** The example scripts

    [examples/fibonacci.py] and [examples/hello.py]: the two functions
    that compute something. *)

(** [range(start, stop)] *)
Definition range_from (start stop : Z) : list Z :=
  (fun i : nat => start + Z.of_nat i) <$> seq 0 (Z.to_nat (stop - start)).

(** [fibonacci(n)] of [fibonacci.py], lines 4-14.  The reads [fib[i-1]]
    and [fib[i-2]] raise [IndexError] outside the list. *)
Definition fibonacci (n : Z) : option (list Z) :=
  if bool_decide (n <= 0) then Some []
  else if bool_decide (n = 1) then Some [0]
  else
    let fib := [0; 1] in
    fib ← for_in (range_from 2 n)
                 (fun fib i =>
                    a ← Py.getitem fib (i - 1);
                    b ← Py.getitem fib (i - 2);
                    Some (append fib (a + b)))
                 fib;
    Some fib.

(** [sum(sequence)], as [main] of [fibonacci.py] prints it. *)
Definition py_sum (l : list Z) : Z := fold_left Z.add l 0.

(** [greet(name)] of [hello.py], lines 4-5. *)
Definition greet (name : string) : string := "Hello, " +:+ name +:+ "!".

(** The Fibonacci numbers [0, 1, 1, 2, 3, 5, ...]. *)
Fixpoint fib_pair (k : nat) : Z * Z :=
  match k with
  | O => (0, 1)
  | S k' => let '(a, b) := fib_pair k' in (b, a + b)
  end.

Definition fib_number (k : nat) : Z := (fib_pair k).1.

(** * Properties *)

(** ** Pixel packing *)

(** Or-ing a value below [2^k] onto a multiple of [2^k] adds it. *)
Lemma lor_low_bits (m k lo : Z) :
  0 <= k -> 0 <= lo < 2 ^ k -> Z.lor (m * 2 ^ k) lo = m * 2 ^ k + lo.
Proof.
  intros Hk Hlo.
  assert (Hdisj : Z.land (m * 2 ^ k) lo = 0).
  { apply Z.bits_inj'. intros n Hn. rewrite Z.land_spec, Z.bits_0.
    destruct (Z.lt_ge_cases n k) as [Hlt | Hge].
    - rewrite Z.mul_pow2_bits_low by lia. reflexivity.
    - destruct (Z.eq_dec lo 0) as [-> | Hne].
      + rewrite Z.bits_0. apply andb_false_r.
      + rewrite (Z.bits_above_log2 lo n); [apply andb_false_r | lia |].
        apply Z.lt_le_trans with k; [| exact Hge].
        apply Z.log2_lt_pow2; lia. }
  rewrite <- Z.lxor_lor by exact Hdisj.
  symmetry. apply Z.add_nocarry_lxor. exact Hdisj.
Qed.

Lemma pack_sum (r g b a : Z) :
  channel_ok r -> channel_ok g -> channel_ok b -> channel_ok a ->
  pack (r, g, b, a) = a * 2 ^ 24 + r * 2 ^ 16 + g * 2 ^ 8 + b.
Proof.
  unfold channel_ok, pack. intros Hr Hg Hb Ha.
  rewrite !Z.shiftl_mul_pow2 by lia.
  rewrite (lor_low_bits a 24 (r * 2 ^ 16)) by lia.
  replace (a * 2 ^ 24 + r * 2 ^ 16) with ((a * 2 ^ 8 + r) * 2 ^ 16) by lia.
  rewrite (lor_low_bits _ 16 (g * 2 ^ 8)) by lia.
  replace ((a * 2 ^ 8 + r) * 2 ^ 16 + g * 2 ^ 8)
    with ((a * 2 ^ 16 + r * 2 ^ 8 + g) * 2 ^ 8) by lia.
  rewrite (lor_low_bits _ 8 b) by lia.
  lia.
Qed.

Lemma unpack_sum (r g b a : Z) :
  channel_ok r -> channel_ok g -> channel_ok b -> channel_ok a ->
  unpack (a * 2 ^ 24 + r * 2 ^ 16 + g * 2 ^ 8 + b) = (r, g, b, a).
Proof.
  unfold channel_ok, unpack. intros Hr Hg Hb Ha.
  change 255 with (Z.ones 8).
  rewrite !Z.land_ones, !Z.shiftr_div_pow2 by lia.
  repeat f_equal.
  all: Z.div_mod_to_equations; lia.
Qed.

Lemma pack_range (p : RGBA) : rgba_ok p -> 0 <= pack p < 2 ^ 32.
Proof.
  destruct p as [[[r g] b] a]. intros (Hr & Hg & Hb & Ha).
  rewrite pack_sum by assumption. unfold channel_ok in *. lia.
Qed.

(** ** Hexadecimal literals read back as the value they were made from *)

Lemma hex_value_digit (d : Z) : 0 <= d < 16 -> hex_value (Py.hex_digit d) = Some d.
Proof.
  intros Hd.
  assert (Hcases : d = 0 \/ d = 1 \/ d = 2 \/ d = 3 \/ d = 4 \/ d = 5 \/ d = 6 \/ d = 7 \/
                   d = 8 \/ d = 9 \/ d = 10 \/ d = 11 \/ d = 12 \/ d = 13 \/ d = 14 \/ d = 15)
    by lia.
  repeat (destruct Hcases as [-> | Hcases]; [reflexivity |]). by subst.
Qed.

Lemma parse_hex_upper_go (fuel : nat) : forall n digits,
  0 <= n < 16 ^ Z.of_nat (S fuel) ->
  exists k, 0 <= k /\ forall acc,
    parse_hex (Py.hex_upper_go fuel n digits) acc = parse_hex digits (acc * 16 ^ k + n).
Proof.
  induction fuel as [| fuel IH]; intros n digits Hn.
  - exists 1. split; [lia |]. intros acc. simpl.
    rewrite hex_value_digit by (apply Z.mod_pos_bound; lia). simpl.
    rewrite Z.mod_small by (simpl in Hn; lia). do 2 f_equal.
  - cbn [Py.hex_upper_go].
    destruct (Z.eqb_spec (n `div` 16) 0) as [Hq | Hq].
    + exists 1. split; [lia |]. intros acc. simpl.
      rewrite hex_value_digit by (apply Z.mod_pos_bound; lia). simpl.
      do 2 f_equal. Z.div_mod_to_equations. lia.
    + destruct (IH (n `div` 16) (String (Py.hex_digit (n `mod` 16)) digits))
        as (k & Hk0 & Hk).
      { rewrite Nat2Z.inj_succ, Z.pow_succ_r in Hn by lia.
        split; [apply Z.div_pos; lia |]. apply Z.div_lt_upper_bound; lia. }
      exists (k + 1). split; [lia |]. intros acc. rewrite Hk. simpl.
      rewrite hex_value_digit by (apply Z.mod_pos_bound; lia). simpl.
      f_equal. rewrite Z.pow_add_r by lia.
      pose proof (Z.div_mod n 16). lia.
Qed.

Lemma parse_hex_upper (n : Z) : 0 <= n -> parse_hex (Py.hex_upper n) 0 = Some n.
Proof.
  intros Hn. unfold Py.hex_upper.
  destruct (parse_hex_upper_go (Z.to_nat (Z.log2 n)) n "") as (k & _ & Hk).
  { split; [done |]. rewrite Nat2Z.inj_succ, Z2Nat.id by apply Z.log2_nonneg.
    destruct (Z.eq_dec n 0) as [-> | Hne]; [done |].
    apply Z.lt_le_trans with (2 ^ Z.succ (Z.log2 n)).
    - apply Z.log2_spec. lia.
    - apply Z.pow_le_mono_l. lia. }
  rewrite Hk. simpl. f_equal.
Qed.

Lemma parse_hex_zeros (k : nat) (s : string) :
  parse_hex (Py.zeros k +:+ s) 0 = parse_hex s 0.
Proof. induction k as [| k IH]; simpl; [done | exact IH]. Qed.

Lemma literal_value_format (n : Z) :
  0 <= n -> literal_value ("0x" +:+ Py.format_08X n) = Some n.
Proof.
  intros Hn. unfold Py.format_08X. rewrite (proj2 (Z.ltb_ge n 0)) by done.
  change (parse_hex (Py.zfill 8 (Py.hex_upper n)) 0 = Some n).
  unfold Py.zfill. rewrite parse_hex_zeros. by apply parse_hex_upper.
Qed.

Lemma literal_value_literal (p : RGBA) :
  rgba_ok p -> literal_value (literal p) = Some (pack p).
Proof.
  intros Hp. unfold literal. apply literal_value_format.
  by apply pack_range.
Qed.

(** C1.  A pixel whose four channels lie in [0,255] is packed into
    [(a<<24) | (r<<16) | (g<<8) | b]; that word fits 32 unsigned bits, the
    inverse bit layout gives back [(r, g, b, a)], and the literal the
    emitter writes for the pixel denotes that word. *)
Theorem pack_unpack_roundtrip (r g b a : Z) :
  channel_ok r -> channel_ok g -> channel_ok b -> channel_ok a ->
  pack (r, g, b, a)
    = Z.lor (Z.lor (Z.lor (Z.shiftl a 24) (Z.shiftl r 16)) (Z.shiftl g 8)) b
  /\ 0 <= pack (r, g, b, a) < 2 ^ 32
  /\ unpack (pack (r, g, b, a)) = (r, g, b, a)
  /\ literal_value (literal (r, g, b, a)) = Some (pack (r, g, b, a)).
Proof.
  intros Hr Hg Hb Ha.
  assert (Hok : rgba_ok (r, g, b, a)) by (unfold rgba_ok; auto).
  split; [reflexivity |]. split; [by apply pack_range |]. split.
  - rewrite pack_sum by assumption. by apply unpack_sum.
  - by apply literal_value_literal.
Qed.

Lemma pack_unpack_roundtrip_witness :
  pack (255, 128, 0, 64) = Z.lor (Z.lor (Z.lor (Z.shiftl 64 24) (Z.shiftl 255 16)) (Z.shiftl 128 8)) 0
  /\ 0 <= pack (255, 128, 0, 64) < 2 ^ 32
  /\ unpack (pack (255, 128, 0, 64)) = (255, 128, 0, 64)
  /\ literal_value (literal (255, 128, 0, 64)) = Some (pack (255, 128, 0, 64)).
Proof. apply (pack_unpack_roundtrip 255 128 0 64); unfold channel_ok; lia. Defined.

(** ** Loops and indexing *)

Section Loops.
Context {A B : Type}.

Lemma for_in_ext (xs : list A) (f g : B -> A -> option B) (s : B) :
  (forall s x, x ∈ xs -> f s x = g s x) -> for_in xs f s = for_in xs g s.
Proof.
  revert s. induction xs as [| x xs IH]; intros s Hfg; simpl; [done |].
  rewrite Hfg by left. destruct (g s x) as [s' |]; simpl; [| done].
  apply IH. intros s0 x0 Hx0. apply Hfg. by right.
Qed.

(** A loop that extends a list by what [g] yields for each element. *)
Lemma for_in_extend (g : A -> option (list B)) (xs : list A) (s : list B) :
  for_in xs (fun s x => ys ← g x; Some (s ++ ys)) s
  = yss ← mapM g xs; Some (s ++ concat yss).
Proof.
  revert s. induction xs as [| x xs IH]; intros s; simpl.
  - by rewrite app_nil_r.
  - destruct (g x) as [ys |]; simpl; [| done].
    rewrite IH. destruct (mapM g xs) as [yss |]; simpl; [| done].
    by rewrite app_assoc.
Qed.

Lemma for_in_append (g : A -> option B) (xs : list A) (s : list B) :
  for_in xs (fun s x => y ← g x; Some (append s y)) s
  = ys ← mapM g xs; Some (s ++ ys).
Proof.
  revert s. induction xs as [| x xs IH]; intros s; simpl.
  - by rewrite app_nil_r.
  - destruct (g x) as [y |]; simpl; [| done].
    rewrite IH. destruct (mapM g xs) as [ys |]; simpl; [| done].
    unfold append. by rewrite <- app_assoc.
Qed.

Lemma mapM_total (g : A -> option B) (f : A -> B) (xs : list A) :
  (forall x, x ∈ xs -> g x = Some (f x)) -> mapM g xs = Some (f <$> xs).
Proof.
  intros Hg. apply mapM_Some, Forall2_fmap_r, Forall_Forall2_diag, Forall_forall.
  exact Hg.
Qed.
End Loops.

Lemma range_lookup (n : Z) (i : nat) :
  (i < Z.to_nat n)%nat -> Py.range n !! i = Some (Z.of_nat i).
Proof.
  intros Hi. unfold Py.range. rewrite list_lookup_fmap.
  rewrite lookup_seq_lt by done. done.
Qed.

Lemma range_length (n : Z) : length (Py.range n) = Z.to_nat n.
Proof. unfold Py.range. by rewrite length_fmap, length_seq. Qed.

Lemma range_elem (n x : Z) : x ∈ Py.range n <-> 0 <= x < n.
Proof.
  unfold Py.range. rewrite list_elem_of_fmap. split.
  - intros (i & -> & Hi). apply elem_of_seq in Hi. lia.
  - intros Hx. exists (Z.to_nat x). split; [lia |]. apply elem_of_seq. lia.
Qed.

Lemma getitem_nonneg {A} (l : list A) (i : Z) :
  0 <= i -> Py.getitem l i = l !! Z.to_nat i.
Proof. intros Hi. unfold Py.getitem. by rewrite bool_decide_true. Qed.

Lemma mapM_range_lookup {A B} (f : A -> B) (l : list A) (off n : nat) :
  (off + n <= length l)%nat ->
  mapM (fun x : Z => f <$> l !! (off + Z.to_nat x)%nat) (Py.range (Z.of_nat n))
  = Some (f <$> take n (drop off l)).
Proof.
  intros Hlen. apply mapM_Some.
  apply Forall2_same_length_lookup_2.
  - rewrite range_length, length_fmap, length_take, length_drop. lia.
  - intros i x y Hx Hy.
    pose proof (lookup_lt_Some _ _ _ Hx) as Hi. rewrite range_length in Hi.
    rewrite range_lookup in Hx by lia. injection Hx as <-.
    rewrite list_lookup_fmap, lookup_take_lt, lookup_drop in Hy by lia.
    rewrite Nat2Z.id. exact Hy.
Qed.

Lemma join_cons (sep x : string) (rest : list string) :
  rest <> [] -> Py.join sep (x :: rest) = x +:+ sep +:+ Py.join sep rest.
Proof. destruct rest; [done | reflexivity]. Qed.

Lemma concat_fmap_fmap {A B} (f : A -> B) (ls : list (list A)) :
  concat (fmap (M:=list) f <$> ls) = f <$> concat ls.
Proof.
  induction ls as [| l ls IH]; [done |].
  cbn [fmap list_fmap concat]. rewrite fmap_app. f_equal. exact IH.
Qed.

(** ** The array emitter *)

Lemma pack_row_spec (img : Image) (y : Z) :
  well_formed img -> 0 <= y < height img ->
  pack_row (data img) (width img) y = Some (literal <$> row_pixels img y).
Proof.
  intros (Hw & Hh & Hlen) Hy. unfold pack_row.
  rewrite (for_in_ext _ _
             (fun row x =>
                v ← (literal <$> (data img !! (Z.to_nat (y * width img) + Z.to_nat x)%nat));
                Some (append row v))).
  2:{ intros s x Hx. apply range_elem in Hx.
      rewrite getitem_nonneg by nia.
      replace (Z.to_nat (y * width img + x))
        with (Z.to_nat (y * width img) + Z.to_nat x)%nat by nia.
      by destruct (data img !! _). }
  rewrite for_in_append. simpl.
  rewrite <- (Z2Nat.id (width img)) at 1 by done.
  rewrite mapM_range_lookup by nia. done.
Qed.

Lemma pack_rows_spec (img : Image) :
  well_formed img ->
  mapM (pack_row (data img) (width img)) (Py.range (height img))
  = Some (fmap (M:=list) literal <$> rows img).
Proof.
  intros Hwf. unfold rows. rewrite <- list_fmap_compose.
  apply mapM_total. intros y Hy. apply range_elem in Hy.
  by apply pack_row_spec.
Qed.

Lemma image_to_c_array_lines_spec (img : Image) (name : string) :
  well_formed img ->
  image_to_c_array_lines img name
  = Some ([comment_line name (width img) (height img);
           declaration_line name (width img * height img)]
          ++ (row_line <$> rows img) ++ ["};"]).
Proof.
  intros Hwf. unfold image_to_c_array_lines, convert_RGBA.
  rewrite (for_in_ext _ _
             (fun lines y => v ← Some (row_line (row_pixels img y));
                             Some (append lines v))).
  2:{ intros s y Hy. apply range_elem in Hy.
      rewrite pack_row_spec by done. done. }
  rewrite for_in_append.
  rewrite (mapM_total _ (fun y => row_line (row_pixels img y))) by done.
  unfold rows. rewrite <- list_fmap_compose. reflexivity.
Qed.

Lemma image_to_c_array_spec (icon : string * Image) :
  well_formed icon.2 ->
  image_to_c_array icon.2 icon.1 = Some (declaration_text icon).
Proof.
  destruct icon as [name img]. intros Hwf. unfold image_to_c_array.
  simpl. by rewrite image_to_c_array_lines_spec.
Qed.

Lemma concat_chunks {A} (l : list A) (w h : nat) :
  concat ((fun y => take w (drop (y * w) l)) <$> seq 0 h) = take (h * w) l.
Proof.
  induction h as [| h IH]; [done |].
  rewrite seq_S, fmap_app, concat_app, IH. simpl.
  rewrite app_nil_r, take_take_drop. f_equal. lia.
Qed.

Lemma rows_concat (img : Image) : well_formed img -> concat (rows img) = data img.
Proof.
  intros (Hw & Hh & Hlen). unfold rows, row_pixels, Py.range.
  rewrite <- list_fmap_compose.
  rewrite (list_fmap_ext _ (fun y : nat => take (Z.to_nat (width img))
                                        (drop (y * Z.to_nat (width img)) (data img)))).
  2:{ intros i y _. simpl. do 2 f_equal. nia. }
  rewrite concat_chunks. apply take_ge. nia.
Qed.

Lemma rows_shape (img : Image) :
  well_formed img ->
  length (rows img) = Z.to_nat (height img) /\
  Forall (fun row => length row = Z.to_nat (width img)) (rows img).
Proof.
  intros (Hw & Hh & Hlen). unfold rows. rewrite length_fmap, range_length.
  split; [done |]. apply Forall_fmap, Forall_forall. intros y Hy.
  apply range_elem in Hy. simpl. unfold row_pixels.
  rewrite length_take, length_drop. nia.
Qed.

(** C4.  For a well-formed surface the [row] lists filled by the inner
    loop, one per image row, hold one literal per pixel; read one after
    the other they are the literals of the stored pixels in storage order,
    and read back they are the packed values of those pixels.  The emitted
    body is one line per [row] list, between the two head lines and the
    closing brace. *)
Theorem emitted_values_row_major (img : Image) (name : string) :
  well_formed img -> Forall rgba_ok (data img) ->
  exists literal_rows : list (list string),
    mapM (pack_row (data img) (width img)) (Py.range (height img)) = Some literal_rows
    /\ image_to_c_array_lines img name
       = Some ([comment_line name (width img) (height img);
                declaration_line name (width img * height img)]
               ++ ((fun row => "    " +:+ Py.join ", " row +:+ ",") <$> literal_rows)
               ++ ["};"])
    /\ length literal_rows = Z.to_nat (height img)
    /\ Forall (fun row => length row = Z.to_nat (width img)) literal_rows
    /\ concat literal_rows = literal <$> data img
    /\ mapM literal_value (concat literal_rows) = Some (pack <$> data img).
Proof.
  intros Hwf Hok. exists (fmap (M:=list) literal <$> rows img).
  destruct (rows_shape img Hwf) as [Hlen Hrow].
  assert (Hcat : concat (fmap (M:=list) literal <$> rows img) = literal <$> data img)
    by (by rewrite concat_fmap_fmap, rows_concat).
  split; [by apply pack_rows_spec |]. split.
  { rewrite image_to_c_array_lines_spec by done.
    by rewrite <- list_fmap_compose. }
  split; [by rewrite length_fmap |]. split.
  { apply Forall_fmap. eapply Forall_impl; [exact Hrow |].
    intros row Hr. simpl. by rewrite length_fmap. }
  split; [exact Hcat |].
  rewrite Hcat. apply mapM_Some, Forall2_fmap, Forall_Forall2_diag.
  eapply Forall_impl; [exact Hok |]. intros p Hp. by apply literal_value_literal.
Qed.

Lemma emitted_values_row_major_witness :
  let img := mkImage 2 2 [(1, 2, 3, 4); (5, 6, 7, 8); (0, 0, 0, 0); (255, 255, 255, 255)] in
  exists literal_rows : list (list string),
    mapM (pack_row (data img) (width img)) (Py.range (height img)) = Some literal_rows
    /\ image_to_c_array_lines img "icon"
       = Some ([comment_line "icon" (width img) (height img);
                declaration_line "icon" (width img * height img)]
               ++ ((fun row => "    " +:+ Py.join ", " row +:+ ",") <$> literal_rows)
               ++ ["};"])
    /\ length literal_rows = Z.to_nat (height img)
    /\ Forall (fun row => length row = Z.to_nat (width img)) literal_rows
    /\ concat literal_rows = literal <$> data img
    /\ mapM literal_value (concat literal_rows) = Some (pack <$> data img).
Proof.
  intros img. apply (emitted_values_row_major img "icon").
  - unfold well_formed. simpl. lia.
  - repeat constructor; unfold channel_ok; lia.
Defined.

(** C5 as worded fails: for a one-pixel icon named [a] the comment is the
    first emitted line and the declaration opens on the second, so no
    comment follows the declaration. *)
Lemma comment_does_not_follow_declaration :
  image_to_c_array_lines (mkImage 1 1 [(255, 255, 255, 255)]) "a"
  = Some ["/* a - 1x1 RGBA icon */"; "static const uint32_t a[1] = {";
          "    0xFFFFFFFF,"; "};"]
  /\ ~ comment_follows_declaration
         ["/* a - 1x1 RGBA icon */"; "static const uint32_t a[1] = {";
          "    0xFFFFFFFF,"; "};"] "a" 1 1.
Proof.
  split; [reflexivity |].
  intros (i & j & Hij & Hi & Hj).
  destruct j as [| [| [| [| j]]]]; simpl in Hj; try discriminate Hj; lia.
Qed.

(** C5, amended.  For a well-formed [S] x [S] surface the emitted text
    starts with a comment line stating the icon's name and [SxS], the
    next line opens an array of [uint32_t] named after the icon with the
    explicit element count [S * S], and the rest is the row lines closed
    by a brace line: the comment comes before the declaration. *)
Theorem declaration_preceded_by_comment (img : Image) (name : string) (S : Z) :
  well_formed img -> width img = S -> height img = S ->
  image_to_c_array img name
  = Some (("/* " +:+ name +:+ " - " +:+ Py.str S +:+ "x" +:+ Py.str S +:+ " RGBA icon */")
          +:+ nl
          +:+ ("static const uint32_t " +:+ name +:+ "[" +:+ Py.str (S * S) +:+ "] = {")
          +:+ nl
          +:+ Py.join nl ((row_line <$> rows img) ++ ["};"])).
Proof.
  intros Hwf Hw Hh. unfold image_to_c_array.
  rewrite image_to_c_array_lines_spec by done. rewrite Hw, Hh.
  cbn [fmap option_fmap option_map app].
  rewrite join_cons by done.
  rewrite join_cons by (by destruct (row_line <$> rows img)).
  reflexivity.
Qed.

Lemma declaration_preceded_by_comment_witness :
  image_to_c_array (mkImage 1 1 [(255, 255, 255, 255)]) "a"
  = Some (("/* " +:+ "a" +:+ " - " +:+ Py.str 1 +:+ "x" +:+ Py.str 1 +:+ " RGBA icon */")
          +:+ nl
          +:+ ("static const uint32_t " +:+ "a" +:+ "[" +:+ Py.str (1 * 1) +:+ "] = {")
          +:+ nl
          +:+ Py.join nl ((row_line <$> rows (mkImage 1 1 [(255, 255, 255, 255)])) ++ ["};"])).
Proof.
  apply (declaration_preceded_by_comment (mkImage 1 1 [(255, 255, 255, 255)]) "a" 1).
  - unfold well_formed. simpl. lia.
  - reflexivity.
  - reflexivity.
Defined.

(** ** The renderer *)

Section Renderer.
Context `{Rasteriser}.

Lemma catalog_renders_canvas entry size :
  entry ∈ catalog -> render entry size = canvas size (calls entry size).
Proof.
  unfold catalog. rewrite !elem_of_cons, elem_of_nil.
  intros [-> | [-> | [-> | [-> | [-> | [-> | [-> | [-> | []]]]]]]]]; reflexivity.
Qed.

Lemma main_icons_catalog size :
  main_icons size = mapM (fun e => pair (ident e) <$> render e size) catalog.
Proof.
  unfold main_icons, catalog. simpl.
  destruct (render_chevron_left size); [| done].
  destruct (render_chevron_right size); [| done].
  destruct (render_rotate_cw size); [| done].
  destruct (render_rotate_ccw size); [| done].
  destruct (render_zoom_in size); [| done].
  destruct (render_zoom_out size); [| done].
  destruct (render_fit size); [| done].
  destruct (render_fullscreen size); done.
Qed.

Lemma paint_lookup mask ink img i p :
  data (paint mask ink img) !! i = Some p ->
  exists q, data img !! i = Some q /\
    p = if mask (Z.of_nat i `mod` width img) (Z.of_nat i `div` width img)
        then ink else q.
Proof.
  unfold paint. simpl. rewrite list_lookup_imap.
  destruct (data img !! i) as [q |]; simpl; [| done].
  intros [= <-]. by exists q.
Qed.

Lemma draw_all_spec shapes : forall img0 img,
  for_in shapes (fun img s => draw img s white) img0 = Some img ->
  width img = width img0 /\ height img = height img0 /\
  length (data img) = length (data img0) /\
  forall i p, data img !! i = Some p ->
    (p = white \/ data img0 !! i = Some p) /\
    (untouched shapes (Z.of_nat i `mod` width img0) (Z.of_nat i `div` width img0) ->
     data img0 !! i = Some p).
Proof.
  induction shapes as [| s shapes IH]; intros img0 img; simpl.
  - intros [= <-]. repeat split; auto.
  - unfold draw at 2. destruct (rasterise s) as [mask |] eqn:Hs; simpl; [| done].
    intros Hrest. apply IH in Hrest as (Hw & Hh & Hlen & Hpix).
    simpl in Hw, Hh, Hlen. rewrite length_imap in Hlen.
    repeat split; try done.
    + destruct (Hpix i p) as [[-> | Hp] _]; [done | by left |].
      apply paint_lookup in Hp as (q & Hq & ->).
      destruct (mask _ _); [by left | by right].
    + intros Hun. destruct (Hpix i p) as [_ Hp]; [done |]. simpl in Hp.
      apply paint_lookup in Hp as (q & Hq & ->).
      * rewrite (Hun s mask); [done | by left | done].
      * intros s' mask' Hin. apply Hun. by right.
Qed.

Lemma draw_all_total shapes : forall img0,
  accepted shapes ->
  is_Some (for_in shapes (fun img s => draw img s white) img0).
Proof.
  induction shapes as [| s shapes IH]; intros img0 Hacc; simpl; [by eexists |].
  apply Forall_cons in Hacc as [[mask Hs] Hacc].
  unfold draw at 2. rewrite Hs. simpl. by apply IH.
Qed.

Lemma canvas_spec size shapes :
  0 <= size -> accepted shapes ->
  exists img, canvas size shapes = Some img /\
    width img = size /\ height img = size /\
    Z.of_nat (length (data img)) = size * size /\
    Forall rgba_ok (data img) /\
    forall x y, 0 <= x < size -> 0 <= y < size ->
      exists p, pixel_at img x y = Some p /\
                (untouched shapes x y -> p = transparent).
Proof.
  intros Hsize Hacc. unfold canvas, Image_new.
  rewrite bool_decide_true by lia. simpl.
  set (blank := mkImage size size _).
  destruct (draw_all_total shapes blank Hacc) as [img Himg].
  exists img. split; [done |].
  apply draw_all_spec in Himg as (Hw & Hh & Hlen & Hpix).
  simpl in Hw, Hh, Hlen, Hpix. rewrite length_replicate in Hlen.
  assert (Hblank : forall i p, replicate (Z.to_nat (size * size)) transparent !! i = Some p ->
                               p = transparent).
  { intros i p Hp. by apply lookup_replicate in Hp as [-> _]. }
  repeat split; try done.
  - nia.
  - apply Forall_lookup. intros i p Hp.
    destruct (Hpix i p Hp) as [[-> | Hq] _].
    + unfold rgba_ok, white, channel_ok. lia.
    + rewrite (Hblank _ _ Hq). unfold rgba_ok, transparent, channel_ok. lia.
  - intros x y Hx Hy. unfold pixel_at. rewrite Hw.
    destruct (lookup_lt_is_Some_2 (data img) (Z.to_nat (y * size + x))) as [p Hp];
      [nia |].
    exists p. split; [done |]. intros Hun.
    destruct (Hpix _ _ Hp) as [_ Hq]. apply (Hblank (Z.to_nat (y * size + x))).
    apply Hq. rewrite Z2Nat.id by nia.
    replace ((y * size + x) `mod` size) with x
      by (apply Z.mod_unique with y; lia).
    replace ((y * size + x) `div` size) with y
      by (apply Z.div_unique with x; lia).
    done.
Qed.

(** C6, amended.  For every entry of the catalog and every positive
    dimension [S] at which Pillow carries out the drawing calls of the
    entry, the render function
    returns a surface of width and height [S] with exactly [S * S]
    pixels, every channel in [0,255]; every position of the grid holds a
    pixel, and a pixel that no drawing call of the entry sets is
    [(0, 0, 0, 0)], written [0x00000000] by the emitter. *)
Theorem rendered_surface (entry : IconEntry) (S : Z) :
  entry ∈ catalog -> 0 < S -> accepted (calls entry S) ->
  exists img, render entry S = Some img /\
    width img = S /\ height img = S /\
    Z.of_nat (length (data img)) = S * S /\
    Forall rgba_ok (data img) /\
    forall x y, 0 <= x < S -> 0 <= y < S ->
      exists p, pixel_at img x y = Some p /\
                (untouched (calls entry S) x y ->
                 p = (0, 0, 0, 0) /\ literal p = "0x00000000"%string).
Proof.
  intros Hin HS Hacc. rewrite catalog_renders_canvas by done.
  destruct (canvas_spec S (calls entry S)) as (img & Himg & Hw & Hh & Hlen & Hok & Hpix);
    [lia | done |].
  exists img. repeat split; try done.
  intros x y Hx Hy. destruct (Hpix x y Hx Hy) as (p & Hp & Hun).
  exists p. split; [done |]. intros Hu. rewrite (Hun Hu). done.
Qed.
End Renderer.

(** C6 as worded fails: at the positive dimension 7 the arc of the
    clockwise rotate icon is given the bounding box [4, 4, 3, 3], whose
    second corner lies before the first; Pillow raises [ValueError] for
    it, and the render function returns no surface. *)
Lemma rotate_cw_returns_no_surface_at_7 :
  mkEntry "toolbar_icon_rotate_cw" (@render_rotate_cw sample_rasteriser) calls_rotate_cw
    ∈ @catalog sample_rasteriser
  /\ 0 < 7
  /\ calls_rotate_cw 7 = [Arc (4, 4, 3, 3) 45 315 2; Polygon [(1, 6); (4, 10); (-3, 8)]]
  /\ @rasterise sample_rasteriser (Arc (4, 4, 3, 3) 45 315 2) = None
  /\ @render_rotate_cw sample_rasteriser 7 = None.
Proof.
  split; [unfold catalog; do 2 right; left |].
  split; [lia |]. repeat split; reflexivity.
Qed.

(** ** The document *)

Lemma main_output_spec (size : Z) (icons : list (string * Image)) :
  Forall (fun icon => well_formed icon.2) icons ->
  main_output size icons
  = Some (document size (declaration_text <$> icons) (icons.*1) index_constants).
Proof.
  intros Hwf. unfold main_output.
  rewrite (for_in_ext _ _
             (fun output icon =>
                ys ← (d ← image_to_c_array icon.2 icon.1; Some [d; ""%string]);
                Some (output ++ ys))).
  2:{ intros s [name img] _. simpl.
      destruct (image_to_c_array img name); simpl; [| done].
      unfold append. by rewrite <- app_assoc. }
  rewrite for_in_extend.
  rewrite (mapM_total _ (fun icon => [declaration_text icon; ""%string])).
  2:{ intros icon Hin. rewrite image_to_c_array_spec; [done |].
      by apply (proj1 (Forall_forall _ _) Hwf). }
  cbn [mbind option_bind].
  rewrite (for_in_ext _ _
             (fun output icon => v ← Some (table_entry icon.1); Some (append output v))).
  2:{ by intros s [name img] _. }
  rewrite for_in_append.
  rewrite (mapM_total _ (fun icon => table_entry icon.1)) by done.
  cbn [mbind option_bind]. f_equal.
  unfold document, banner, guard_opening, dependency_include, dimension_constant,
    array_declarations, lookup_table, guard_closing, index_constants, append.
  rewrite <- !list_fmap_compose.
  repeat (rewrite <- ?app_assoc; cbn [app]).
  reflexivity.
Qed.

Lemma elem_of_concat {A} (x : A) (l : list A) (ls : list (list A)) :
  x ∈ l -> l ∈ ls -> x ∈ concat ls.
Proof.
  intros Hx. induction ls as [| l' ls IH]; intros Hl.
  - by apply elem_of_nil in Hl.
  - simpl. apply elem_of_app. apply elem_of_cons in Hl as [<- | Hl]; auto.
Qed.

Section Document.
Context `{Rasteriser}.

Lemma accepted_entry (entry : IconEntry) (size : Z) :
  entry ∈ catalog -> accepted (run_calls size) -> accepted (calls entry size).
Proof.
  intros Hin Hacc. unfold accepted, run_calls in *.
  apply Forall_forall. intros s Hs.
  apply (proj1 (Forall_forall _ _) Hacc).
  apply elem_of_concat with (calls entry size); [done |].
  apply list_elem_of_fmap. by exists entry.
Qed.

Lemma main_icons_spec (size : Z) :
  0 <= size -> accepted (run_calls size) ->
  exists icons, main_icons size = Some icons
    /\ icons.*1 = ident <$> catalog
    /\ Forall (fun icon => well_formed icon.2) icons.
Proof.
  intros Hsize Hacc.
  assert (Hall : forall e, e ∈ catalog ->
            exists img, render e size = Some img /\ well_formed img).
  { intros e He. rewrite catalog_renders_canvas by done.
    destruct (canvas_spec size (calls e size) Hsize (accepted_entry e size He Hacc))
      as (img & Himg & Hw & Hh & Hlen & _).
    exists img. split; [done |]. unfold well_formed. rewrite Hw, Hh. lia. }
  rewrite main_icons_catalog.
  induction catalog as [| e es IH].
  - exists []. by repeat split.
  - destruct (Hall e) as (img & Himg & Hwf); [by left |].
    destruct IH as (icons & Hicons & Hnames & Hwfs).
    { intros e' He'. apply Hall. by right. }
    exists ((ident e, img) :: icons). cbn [mapM]. rewrite Himg, Hicons. simpl.
    split; [done |]. split; [cbn [fmap list_fmap fst]; f_equal; exact Hnames | by constructor].
Qed.

Lemma index_constants_per_icon :
  index_constants = per_icon_constants (ident <$> catalog).
Proof. reflexivity. Qed.

(** C2.  Whenever [main] runs at a non-negative dimension with drawing
    calls Pillow carries out, its document holds, after the array
    declarations, the lookup table with exactly one entry per icon of
    [icons] in order, then one index constant per icon: for the icon at
    position [k] the table's entry [k] names it, and constant [k] is its
    upper-cased identifier defined as [k]. *)
Theorem index_table_consistency (g : Globals) :
  0 <= ICON_SIZE g -> accepted (run_calls (ICON_SIZE g)) ->
  exists icons head entries consts,
    main_icons (ICON_SIZE g) = Some icons
    /\ icons.*1 = ident <$> catalog
    /\ main g
       = Some (Py.join nl
                 (head
                  ++ ["/* Icon array for toolbar */";
                      "static const uint32_t* toolbar_icons[] = {"]%string
                  ++ entries ++ ["};"; ""]%string
                  ++ consts
                  ++ [""; "#endif /* TOOLBAR_ICONS_H */"]%string))
    /\ length entries = length icons
    /\ length consts = length icons
    /\ forall (k : nat) (name : string),
         icons.*1 !! k = Some name ->
         entries !! k = Some ("    " +:+ name +:+ ",")
         /\ consts !! k
            = Some ("#define " +:+ upper name +:+ " " +:+ Py.str (Z.of_nat k)).
Proof.
  intros Hsize Hacc.
  destruct (main_icons_spec (ICON_SIZE g) Hsize Hacc) as (icons & Hicons & Hnames & Hwf).
  exists icons,
    (banner ++ guard_opening ++ dependency_include ++ dimension_constant (ICON_SIZE g)
     ++ array_declarations (declaration_text <$> icons)),
    (table_entry <$> icons.*1), index_constants.
  split; [done |]. split; [done |]. split.
  { unfold main. rewrite Hicons. cbn [mbind option_bind]. unfold main_emit.
    rewrite main_output_spec by done.
    unfold document, lookup_table, guard_closing.
    by rewrite <- !app_assoc. }
  split; [by rewrite !length_fmap |].
  split; [by rewrite <- (length_fmap fst icons), Hnames |].
  intros k name Hk. split.
  - rewrite list_lookup_fmap, Hk. done.
  - rewrite Hnames in Hk. clear -Hk.
    do 8 (destruct k as [| k]; [injection Hk as <-; reflexivity |]).
    discriminate Hk.
Qed.


(** C3.  Whenever [main] runs at a non-negative dimension with drawing
    calls Pillow carries out, the text it hands to [print] is, in this
    order: the comment banner, the include-guard opening, the include of
    [types.h], the dimension constant, one array declaration per icon of
    its icon set in order (each the text [image_to_c_array] returns for
    that icon), the lookup table with one entry per icon in order, one
    index constant per icon, and the include-guard closing. *)
Theorem document_sections_in_order (g : Globals) :
  0 <= ICON_SIZE g -> accepted (run_calls (ICON_SIZE g)) ->
  exists icons,
    main_icons (ICON_SIZE g) = Some icons
    /\ main g = Some (Py.join nl (spec_document (ICON_SIZE g) icons))
    /\ spec_document (ICON_SIZE g) icons
       = banner ++ guard_opening ++ dependency_include
         ++ dimension_constant (ICON_SIZE g)
         ++ array_declarations (declaration_text <$> icons)
         ++ lookup_table (icons.*1)
         ++ per_icon_constants (icons.*1)
         ++ guard_closing
    /\ length (declaration_text <$> icons) = length icons
    /\ length (table_entry <$> icons.*1) = length icons
    /\ length (per_icon_constants (icons.*1)) = length icons
    /\ forall icon, icon ∈ icons ->
         image_to_c_array icon.2 icon.1 = Some (declaration_text icon).
Proof.
  intros Hsize Hacc.
  destruct (main_icons_spec (ICON_SIZE g) Hsize Hacc) as (icons & Hicons & Hnames & Hwf).
  exists icons. split; [done |]. split.
  { unfold main. rewrite Hicons. cbn [mbind option_bind]. unfold main_emit.
    rewrite main_output_spec by done. unfold spec_document.
    by rewrite Hnames, <- index_constants_per_icon. }
  split; [reflexivity |].
  split; [by rewrite length_fmap |].
  split; [by rewrite !length_fmap |].
  split; [unfold per_icon_constants; by rewrite length_imap, length_fmap |].
  intros icon Hin. apply image_to_c_array_spec.
  by apply (proj1 (Forall_forall _ _) Hwf).
Qed.

End Document.


Lemma sample_accepts_run : @accepted sample_rasteriser (@run_calls sample_rasteriser 24).
Proof. unfold accepted. repeat constructor; by eexists. Qed.

Lemma rendered_surface_witness :
  let entry := mkEntry "toolbar_icon_fit" (@render_fit sample_rasteriser) calls_fit in
  exists img, render entry 24 = Some img /\
    width img = 24 /\ height img = 24 /\
    Z.of_nat (length (data img)) = 24 * 24 /\
    Forall rgba_ok (data img) /\
    forall x y, 0 <= x < 24 -> 0 <= y < 24 ->
      exists p, pixel_at img x y = Some p /\
                (@untouched sample_rasteriser (calls entry 24) x y ->
                 p = (0, 0, 0, 0) /\ literal p = "0x00000000"%string).
Proof.
  intros entry. apply (@rendered_surface sample_rasteriser entry 24).
  - unfold catalog. do 6 right. left.
  - lia.
  - unfold accepted. repeat constructor; by eexists.
Defined.

Lemma index_table_consistency_witness :
  exists icons head entries consts,
    @main_icons sample_rasteriser (ICON_SIZE module_globals) = Some icons
    /\ icons.*1 = ident <$> @catalog sample_rasteriser
    /\ @main sample_rasteriser module_globals
       = Some (Py.join nl
                 (head
                  ++ ["/* Icon array for toolbar */";
                      "static const uint32_t* toolbar_icons[] = {"]%string
                  ++ entries ++ ["};"; ""]%string
                  ++ consts
                  ++ [""; "#endif /* TOOLBAR_ICONS_H */"]%string))
    /\ length entries = length icons
    /\ length consts = length icons
    /\ forall (k : nat) (name : string),
         icons.*1 !! k = Some name ->
         entries !! k = Some ("    " +:+ name +:+ ",")
         /\ consts !! k
            = Some ("#define " +:+ upper name +:+ " " +:+ Py.str (Z.of_nat k)).
Proof.
  apply (@index_table_consistency sample_rasteriser module_globals).
  - simpl. lia.
  - exact sample_accepts_run.
Defined.

Lemma document_sections_in_order_witness :
  exists icons,
    @main_icons sample_rasteriser (ICON_SIZE module_globals) = Some icons
    /\ @main sample_rasteriser module_globals
       = Some (Py.join nl (spec_document (ICON_SIZE module_globals) icons))
    /\ spec_document (ICON_SIZE module_globals) icons
       = banner ++ guard_opening ++ dependency_include
         ++ dimension_constant (ICON_SIZE module_globals)
         ++ array_declarations (declaration_text <$> icons)
         ++ lookup_table (icons.*1)
         ++ per_icon_constants (icons.*1)
         ++ guard_closing
    /\ length (declaration_text <$> icons) = length icons
    /\ length (table_entry <$> icons.*1) = length icons
    /\ length (per_icon_constants (icons.*1)) = length icons
    /\ forall icon, icon ∈ icons ->
         image_to_c_array icon.2 icon.1 = Some (declaration_text icon).
Proof.
  apply (@document_sections_in_order sample_rasteriser module_globals).
  - simpl. lia.
  - exact sample_accepts_run.
Defined.

(** ** Runs of the script *)

Lemma string_app_assoc (a b c : string) : (a +:+ b) +:+ c = a +:+ (b +:+ c).
Proof.
  induction a as [| x a IH]; [reflexivity |].
  change (String x ((a +:+ b) +:+ c) = String x (a +:+ (b +:+ c))).
  by rewrite IH.
Qed.

Lemma string_app_nil_r (a : string) : a +:+ "" = a.
Proof.
  induction a as [| x a IH]; [reflexivity |].
  change (String x (a +:+ "") = String x a). by rewrite IH.
Qed.



Section Runs.
Context `{Rasteriser}.

Lemma process_outcome (g : Globals) (w : World) (c : Console) :
  process g w c
  = if pil_importable w || pip_installs_pil w
    then match main g with
         | Some doc => mkOutcome (preamble w c +:+ doc +:+ nl) Exit_ok
         | None => mkOutcome (preamble w c) Uncaught_exception
         end
    else mkOutcome (preamble w c) Uncaught_exception.
Proof.
  unfold process, import_PIL_stream, preamble, stream_print, stream_child,
    stream_close, install_notice.
  destruct (pil_importable w), (block_buffered c), (pip_installs_pil w),
    (main g) as [doc |];
    cbn [orb written pending String.append];
    rewrite ?string_app_nil_r, ?string_app_assoc; reflexivity.
Qed.

Lemma process_status (g : Globals) (w : World) (c : Console) :
  status (process g w c) = status (run g w).
Proof.
  rewrite process_outcome. unfold run, import_PIL.
  by destruct (pil_importable w), (pip_installs_pil w), (main g).
Qed.


(** C8, amended.  On a failing run no part of the document reaches
    standard output: the stream is empty when Pillow was importable at
    the start, and otherwise holds the notice line the script prints and
    the lines of [pip3], those of [pip3] first under block buffering.  On
    a successful run the one document and a newline are written, after
    nothing when Pillow was importable at the start, and after the notice
    and the lines of [pip3] otherwise. *)
Theorem stdout_of_a_run (g : Globals) (w : World) (c : Console) :
  (status (process g w c) = Uncaught_exception ->
   stdout (process g w c) = preamble w c)
  /\ (status (process g w c) = Exit_ok ->
      exists doc, main g = Some doc
        /\ stdout (process g w c) = preamble w c +:+ doc +:+ nl)
  /\ (pil_importable w = true -> preamble w c = ""%string)
  /\ (pil_importable w = false ->
      preamble w c = if block_buffered c
                     then pip_prints c +:+ "PIL not found. Installing..." +:+ nl
                     else "PIL not found. Installing..." +:+ nl +:+ pip_prints c).
Proof.
  split; [| split; [| split]].
  - rewrite process_outcome.
    by destruct (pil_importable w || pip_installs_pil w), (main g).
  - rewrite process_outcome.
    destruct (pil_importable w || pip_installs_pil w), (main g) as [doc |];
      simpl; try done.
    intros _. by exists doc.
  - unfold preamble. by intros ->.
  - unfold preamble, install_notice. intros ->.
    destruct (block_buffered c); [reflexivity |].
    by rewrite string_app_assoc.
Qed.
End Runs.


(** C8 as worded fails: when Pillow is neither importable nor installed
    by [pip3], the run ends in an uncaught [ImportError] with the lines
    of [pip3] and the script's notice on standard output. *)
Lemma failing_run_writes_to_stdout :
  let w := mkWorld false false (fun _ => None) in
  let c := mkConsole ("Collecting pillow" +:+ nl) true in
  status (@process sample_rasteriser module_globals w c) = Uncaught_exception
  /\ stdout (@process sample_rasteriser module_globals w c)
     = "Collecting pillow" +:+ nl +:+ "PIL not found. Installing..." +:+ nl
  /\ stdout (@process sample_rasteriser module_globals w c) <> ""%string.
Proof. intros w c. split; [reflexivity |]. split; [reflexivity | discriminate]. Qed.


Section Independence.
Context `{Rasteriser}.

(** C10.  Two runs that differ only in the module-level [ICONS] list and
    in the files on disk hand the same text to [print] and write the same
    text to standard output, with the same exit status: of the module
    state only [ICON_SIZE] is read, and no file is. *)
Theorem output_ignores_ICONS_and_files (g1 g2 : Globals) (w1 w2 : World) :
  ICON_SIZE g1 = ICON_SIZE g2 ->
  pil_importable w1 = pil_importable w2 ->
  pip_installs_pil w1 = pip_installs_pil w2 ->
  main g1 = main g2
  /\ stdout (run g1 w1) = stdout (run g2 w2)
  /\ status (run g1 w1) = status (run g2 w2).
Proof.
  intros Hsize Hpil Hpip.
  assert (Hmain : main g1 = main g2) by (unfold main; by rewrite Hsize).
  split; [exact Hmain |].
  unfold run, import_PIL. rewrite Hpil, Hpip, Hmain.
  destruct (pil_importable w2), (pip_installs_pil w2), (main g2); by split.
Qed.
End Independence.


Lemma output_ignores_ICONS_and_files_witness :
  let g2 := mkGlobals 24 [("icon_other"%string, "other.png"%string)] in
  let w1 := mkWorld true true (fun _ => None) in
  let w2 := mkWorld true true (fun _ => Some [137; 80; 78; 71]) in
  @main sample_rasteriser module_globals = @main sample_rasteriser g2
  /\ stdout (@run sample_rasteriser module_globals w1) = stdout (@run sample_rasteriser g2 w2)
  /\ status (@run sample_rasteriser module_globals w1) = status (@run sample_rasteriser g2 w2).
Proof.
  intros g2 w1 w2.
  apply (@output_ignores_ICONS_and_files sample_rasteriser module_globals g2 w1 w2);
    reflexivity.
Defined.


(** * Further properties *)

(** ** Packing and literals *)

Lemma string_length_app (s t : string) :
  String.length (s +:+ t) = (String.length s + String.length t)%nat.
Proof. induction s as [| c s IH]; simpl; [done | by rewrite IH]. Qed.

(** X1.  Every 32-bit word is the packed form of a pixel: its four bytes are
    channels in [0,255], and packing them gives the word back. *)
Theorem pack_onto_words (w : Z) :
  0 <= w < 2 ^ 32 -> rgba_ok (unpack w) /\ pack (unpack w) = w.
Proof.
  intros Hw. unfold unpack. change 255 with (Z.ones 8).
  rewrite !Z.land_ones, !Z.shiftr_div_pow2 by lia.
  assert (Hr : channel_ok ((w `div` 2 ^ 16) `mod` 2 ^ 8))
    by (unfold channel_ok; Z.div_mod_to_equations; lia).
  assert (Hg : channel_ok ((w `div` 2 ^ 8) `mod` 2 ^ 8))
    by (unfold channel_ok; Z.div_mod_to_equations; lia).
  assert (Hb : channel_ok (w `mod` 2 ^ 8))
    by (unfold channel_ok; Z.div_mod_to_equations; lia).
  assert (Ha : channel_ok ((w `div` 2 ^ 24) `mod` 2 ^ 8))
    by (unfold channel_ok; Z.div_mod_to_equations; lia).
  split; [unfold rgba_ok; auto |].
  rewrite pack_sum by assumption.
  Z.div_mod_to_equations. lia.
Qed.

(** X2.  Two pixels with channels in [0,255] that get the same literal are the
    same pixel. *)
Theorem literal_injective (p q : RGBA) :
  rgba_ok p -> rgba_ok q -> literal p = literal q -> p = q.
Proof.
  intros Hp Hq Heq.
  assert (Hpack : pack p = pack q).
  { apply (f_equal literal_value) in Heq.
    rewrite !literal_value_literal in Heq by assumption. by injection Heq. }
  destruct p as [[[r g] b] a], q as [[[r' g'] b'] a'].
  destruct Hp as (? & ? & ? & ?), Hq as (? & ? & ? & ?).
  rewrite <- (unpack_sum r g b a), <- (unpack_sum r' g' b' a') by assumption.
  rewrite <- !pack_sum by assumption. by rewrite Hpack.
Qed.

Lemma hex_upper_go_length (fuel : nat) : forall (k : nat) (n : Z) (acc : string),
  (1 <= k)%nat -> 0 <= n < 16 ^ Z.of_nat k ->
  (String.length acc < String.length (Py.hex_upper_go fuel n acc)
   <= k + String.length acc)%nat.
Proof.
  induction fuel as [| fuel IH]; intros k n acc Hk Hn; cbn [Py.hex_upper_go].
  - simpl. lia.
  - destruct (Z.eqb_spec (n `div` 16) 0) as [Hq | Hq]; [simpl; lia |].
    destruct k as [| [| k]]; [lia | |].
    + exfalso. apply Hq. apply Z.div_small. simpl in Hn. lia.
    + specialize (IH (S k) (n `div` 16) (String (Py.hex_digit (n `mod` 16)) acc)).
      simpl String.length in IH.
      assert (0 <= n `div` 16 < 16 ^ Z.of_nat (S k)).
      { rewrite (Nat2Z.inj_succ (S k)), Z.pow_succ_r in Hn by lia.
        split; [apply Z.div_pos; lia |]. apply Z.div_lt_upper_bound; lia. }
      specialize (IH ltac:(lia) ltac:(assumption)). lia.
Qed.

(** X3.  The literal of a pixel with channels in [0,255] is ten characters
    long: [0x] and eight digits. *)
Theorem literal_width (p : RGBA) : rgba_ok p -> String.length (literal p) = 10%nat.
Proof.
  intros Hp. pose proof (pack_range p Hp) as Hrange.
  unfold literal, Py.format_08X. rewrite (proj2 (Z.ltb_ge (pack p) 0)) by lia.
  unfold Py.zfill, Py.hex_upper.
  pose proof (hex_upper_go_length (Z.to_nat (Z.log2 (pack p))) 8 (pack p) ""
                ltac:(lia) ltac:(simpl; lia)) as Hlen.
  simpl String.length in Hlen.
  rewrite !string_length_app.
  assert (Hz : forall k, String.length (Py.zeros k) = k)
    by (induction k; simpl; congruence).
  rewrite Hz. simpl String.length. lia.
Qed.

(** X4.  The element count written in the declaration is the number of
    literals that follow it. *)
Theorem declared_count_matches (img : Image) (name : string) :
  well_formed img ->
  exists literal_rows : list (list string),
    mapM (pack_row (data img) (width img)) (Py.range (height img)) = Some literal_rows
    /\ image_to_c_array_lines img name
       = Some ([comment_line name (width img) (height img);
                "static const uint32_t " +:+ name +:+ "["
                  +:+ Py.str (Z.of_nat (length (concat literal_rows))) +:+ "] = {"]
               ++ ((fun row => "    " +:+ Py.join ", " row +:+ ",") <$> literal_rows)
               ++ ["};"]).
Proof.
  intros Hwf. exists (fmap (M:=list) literal <$> rows img).
  split; [by apply pack_rows_spec |].
  rewrite image_to_c_array_lines_spec by done.
  rewrite concat_fmap_fmap, length_fmap, rows_concat by done.
  destruct Hwf as (_ & _ & ->).
  by rewrite <- list_fmap_compose.
Qed.

(** X5.  A surface without pixels still gets a declaration, of length 0, with
    one line holding a lone comma for every image row. *)
Theorem empty_surface_lines (img : Image) (name : string) :
  well_formed img -> width img * height img = 0 ->
  image_to_c_array_lines img name
  = Some ([comment_line name (width img) (height img);
           "static const uint32_t " +:+ name +:+ "[0] = {"]
          ++ replicate (Z.to_nat (height img)) "    ,"%string ++ ["};"]).
Proof.
  intros Hwf Hzero. rewrite image_to_c_array_lines_spec by done.
  destruct Hwf as (Hw & Hh & Hlen). rewrite Hzero in *.
  assert (Hdata : data img = []) by (apply nil_length_inv; lia).
  do 3 f_equal. unfold rows.
  rewrite <- list_fmap_compose, <- (range_length (height img)).
  apply const_fmap. intros i y _. unfold compose, row_pixels.
  by rewrite Hdata, drop_nil, take_nil.
Qed.

Lemma Forall_concat_intro {A} (P : A -> Prop) (ls : list (list A)) :
  Forall (Forall P) ls -> Forall P (concat ls).
Proof.
  induction 1 as [| l ls Hl _ IH]; simpl; [constructor |].
  by apply Forall_app.
Qed.

(** ** Rendering and running *)

Section More.
Context `{Rasteriser}.

Lemma draw_all_exact shapes : forall img0 img,
  for_in shapes (fun img s => draw img s white) img0 = Some img ->
  forall i p, data img !! i = Some p ->
    (covered shapes (Z.of_nat i `mod` width img0) (Z.of_nat i `div` width img0)
     /\ p = white)
    \/ (untouched shapes (Z.of_nat i `mod` width img0) (Z.of_nat i `div` width img0)
        /\ data img0 !! i = Some p).
Proof.
  induction shapes as [| s shapes IH]; intros img0 img; simpl.
  - intros [= <-] i p Hp. right. split; [| done].
    intros s mask Hin. by apply elem_of_nil in Hin.
  - unfold draw at 2. destruct (rasterise s) as [mask |] eqn:Hs; simpl; [| done].
    intros Hrest i p Hp.
    destruct (IH _ _ Hrest i p Hp) as [[(s' & mask' & Hin & Hs' & Hm) ->] | [Hun Hq]];
      simpl in *.
    + left. split; [| done]. exists s', mask'. repeat split; try done. by right.
    + apply paint_lookup in Hq as (q & Hq & ->).
      destruct (mask _ _) eqn:Hm.
      * left. split; [| done]. exists s, mask. repeat split; try done. by left.
      * right. split; [| done]. intros s' mask' Hin Hs'.
        apply elem_of_cons in Hin as [-> | Hin]; [| by apply (Hun s')].
        rewrite Hs in Hs'. by injection Hs' as <-.
Qed.

Lemma draw_all_accepted shapes : forall img0,
  is_Some (for_in shapes (fun img s => draw img s white) img0) -> accepted shapes.
Proof.
  induction shapes as [| s shapes IH]; intros img0; simpl; [constructor |].
  unfold draw at 2. destruct (rasterise s) as [mask |] eqn:Hs; simpl.
  - intros Hrest. constructor; [by eexists | by apply (IH _ Hrest)].
  - by intros [? ?].
Qed.

Lemma canvas_is_Some size shapes :
  is_Some (canvas size shapes) <-> 0 <= size /\ accepted shapes.
Proof.
  split.
  - unfold canvas, Image_new. case_bool_decide as Hsz; simpl; [| by intros [? ?]].
    intros Hdraw. split; [lia | by apply draw_all_accepted in Hdraw].
  - intros [Hsz Hacc].
    destruct (canvas_spec size shapes Hsz Hacc) as (img & -> & _). by eexists.
Qed.

(** X6.  Every pixel of a rendered icon is opaque white if some drawing call
    of the icon sets it and fully transparent otherwise, whatever the
    order of the calls; the emitter writes it as [0xFFFFFFFF] or
    [0x00000000]. *)
Theorem rendered_pixels_two_valued (entry : IconEntry) (S : Z) :
  entry ∈ catalog -> 0 <= S -> accepted (calls entry S) ->
  exists img, render entry S = Some img
    /\ (forall x y, 0 <= x < S -> 0 <= y < S ->
          (covered (calls entry S) x y
           /\ pixel_at img x y = Some (255, 255, 255, 255))
          \/ (untouched (calls entry S) x y
              /\ pixel_at img x y = Some (0, 0, 0, 0)))
    /\ Forall (fun p => literal p = "0xFFFFFFFF"%string
                        \/ literal p = "0x00000000"%string) (data img).
Proof.
  intros Hin HS Hacc. rewrite catalog_renders_canvas by done.
  destruct (canvas_spec S (calls entry S) HS Hacc)
    as (img & Himg & Hw & Hh & Hlen & _ & Hdef).
  exists img. split; [done |].
  unfold canvas, Image_new in Himg. rewrite bool_decide_true in Himg by lia.
  simpl in Himg. pose proof (draw_all_exact _ _ _ Himg) as Hexact. simpl in Hexact.
  assert (Hblank : forall i p, replicate (Z.to_nat (S * S)) transparent !! i = Some p ->
                               p = transparent).
  { intros i p Hp. by apply lookup_replicate in Hp as [-> _]. }
  split.
  - intros x y Hx Hy. destruct (Hdef x y Hx Hy) as (p & Hp & _).
    unfold pixel_at in *. rewrite Hw in *.
    destruct (Hexact _ _ Hp) as [[Hcov ->] | [Hun Hq]].
    + left. split; [| done]. revert Hcov. rewrite Z2Nat.id by nia.
      replace ((y * S + x) `mod` S) with x by (apply Z.mod_unique with y; lia).
      replace ((y * S + x) `div` S) with y by (apply Z.div_unique with x; lia).
      done.
    + right. rewrite Hp, (Hblank _ _ Hq). split; [| done].
      revert Hun. rewrite Z2Nat.id by nia.
      replace ((y * S + x) `mod` S) with x by (apply Z.mod_unique with y; lia).
      replace ((y * S + x) `div` S) with y by (apply Z.div_unique with x; lia).
      done.
  - apply Forall_lookup. intros i p Hp.
    destruct (Hexact _ _ Hp) as [[_ ->] | [_ Hq]]; [by left |].
    rewrite (Hblank _ _ Hq). by right.
Qed.

Lemma main_is_Some (g : Globals) :
  is_Some (main g) <-> 0 <= ICON_SIZE g /\ accepted (run_calls (ICON_SIZE g)).
Proof.
  split.
  - unfold main. destruct (main_icons (ICON_SIZE g)) as [icons |] eqn:Hicons;
      simpl; [| by intros [? ?]].
    intros _. rewrite main_icons_catalog in Hicons.
    assert (Hall : Forall (fun e => is_Some (canvas (ICON_SIZE g) (calls e (ICON_SIZE g))))
                     catalog).
    { apply Forall_forall. intros e He.
      rewrite <- catalog_renders_canvas by done.
      assert (Hsome : is_Some (mapM (fun e => pair (ident e) <$> render e (ICON_SIZE g))
                                 catalog)) by by eexists.
      apply mapM_is_Some_1 in Hsome.
      apply (proj1 (Forall_forall _ _) Hsome) in He. simpl in He.
      destruct (render e (ICON_SIZE g)); [by eexists | by destruct He]. }
    split.
    + apply Forall_inv in Hall. by apply canvas_is_Some in Hall as [? _].
    + apply Forall_concat_intro, Forall_fmap.
      eapply Forall_impl; [exact Hall |]. intros e He.
      by apply canvas_is_Some in He as [_ ?].
  - intros [Hsz Hacc].
    destruct (main_icons_spec _ Hsz Hacc) as (icons & Hicons & _ & Hwf).
    unfold main. rewrite Hicons. simpl. unfold main_emit.
    rewrite main_output_spec by done. by eexists.
Qed.

(** X8.  A run ends with exit status 0 exactly when Pillow is importable or
    gets installed, [ICON_SIZE] is not negative, and Pillow carries out
    every drawing call of the eight icons; [main] returns its text
    exactly under the last two conditions. *)
Theorem run_succeeds_iff (g : Globals) (w : World) :
  (is_Some (main g)
   <-> 0 <= ICON_SIZE g /\ accepted (run_calls (ICON_SIZE g)))
  /\ (status (run g w) = Exit_ok
      <-> (pil_importable w = true \/ pip_installs_pil w = true)
          /\ 0 <= ICON_SIZE g /\ accepted (run_calls (ICON_SIZE g))).
Proof.
  split; [apply main_is_Some |].
  rewrite <- main_is_Some. unfold run, import_PIL.
  destruct (pil_importable w), (pip_installs_pil w), (main g) as [doc |]; simpl;
    split; try done; try (intros [_ [? ?]]; done); try (intros [[? | ?] ?]; done);
    intros _; (split; [auto | by eexists]).
Qed.

(** X7.  From dimension 15 on, every point handed to a drawing call of
    the eight icons is a pixel position of the surface, and every bounding
    box is in order; at dimension 14 the lower end of the left chevron is
    already below the surface. *)
Theorem calls_within_canvas (S : Z) :
  15 <= S ->
  Forall (fun s => on_canvas S s /\ box_in_order s) (run_calls S)
  /\ ~ Forall (on_canvas 14) (calls_chevron_left 14).
Proof.
  intros HS. split.
  - unfold run_calls, catalog. cbn [fmap list_fmap concat calls app].
    unfold calls_chevron_left, calls_chevron_right, calls_rotate_cw, calls_rotate_ccw,
      calls_zoom_in, calls_zoom_out, calls_fit, calls_fullscreen.
    pose proof (Z.div_mod S 2 ltac:(lia)) as Hdiv.
    pose proof (Z.mod_pos_bound S 2 ltac:(lia)) as Hmod.
    repeat (apply Forall_cons; split;
            [split; [unfold on_canvas; cbn [vertices]; repeat constructor; simpl; lia
                    | simpl; lia || exact I] |]).
    apply Forall_nil_2.
  - intros Hall. unfold calls_chevron_left in Hall.
    change (14 `div` 2) with 7 in Hall. cbv zeta in Hall.
    apply Forall_cons in Hall as [Hline _].
    unfold on_canvas in Hline. cbn [vertices] in Hline.
    do 2 apply Forall_cons in Hline as [_ Hline].
    apply Forall_cons in Hline as [[_ Hy] _]. simpl in Hy. lia.
Qed.

End More.

(** ** The example scripts *)

Lemma fib_number_step (k : nat) :
  fib_number (S (S k)) = fib_number (S k) + fib_number k.
Proof.
  unfold fib_number. simpl. destruct (fib_pair k) as [a b]. simpl. lia.
Qed.

Lemma getitem_fib (k : nat) (j : Z) :
  0 <= j < Z.of_nat k ->
  Py.getitem (fib_number <$> seq 0 k) j = Some (fib_number (Z.to_nat j)).
Proof.
  intros Hj. rewrite getitem_nonneg by lia.
  rewrite list_lookup_fmap, lookup_seq_lt by lia. done.
Qed.

Lemma fib_loop (m : nat) : forall k : nat,
  (2 <= k)%nat ->
  for_in (Z.of_nat <$> seq k m)
         (fun fib i =>
            a ← Py.getitem fib (i - 1);
            b ← Py.getitem fib (i - 2);
            Some (append fib (a + b)))
         (fib_number <$> seq 0 k)
  = Some (fib_number <$> seq 0 (k + m)).
Proof.
  induction m as [| m IH]; intros k Hk.
  - simpl. by rewrite Nat.add_0_r.
  - cbn [seq fmap list_fmap for_in].
    rewrite !getitem_fib by lia. cbn [mbind option_bind].
    replace (append (fib_number <$> seq 0 k)
               (fib_number (Z.to_nat (Z.of_nat k - 1))
                + fib_number (Z.to_nat (Z.of_nat k - 2))))
      with (fib_number <$> seq 0 (S k)).
    + rewrite IH by lia. do 3 f_equal. lia.
    + destruct k as [| [| k]]; [lia | lia |].
      replace (Z.to_nat (Z.of_nat (S (S k)) - 1)) with (S k) by lia.
      replace (Z.to_nat (Z.of_nat (S (S k)) - 2)) with k by lia.
      rewrite (seq_S (S (S k))), fmap_app, Nat.add_0_l. unfold append.
      cbn [fmap list_fmap]. by rewrite fib_number_step.
Qed.

Lemma range_from_seq (n : Z) :
  range_from 2 n = Z.of_nat <$> seq 2 (Z.to_nat (n - 2)).
Proof.
  unfold range_from. rewrite <- (fmap_add_seq 2 0), <- list_fmap_compose.
  apply list_fmap_ext. intros _ i _. simpl. lia.
Qed.

Lemma fibonacci_closed_form (n : Z) :
  fibonacci n = Some (fib_number <$> seq 0 (Z.to_nat n)).
Proof.
  unfold fibonacci. repeat case_bool_decide.
  - by replace (Z.to_nat n) with 0%nat by lia.
  - by subst.
  - rewrite range_from_seq.
    change [0; 1] with (fib_number <$> seq 0 2).
    rewrite fib_loop by lia. cbn [mbind option_bind].
    by replace (2 + Z.to_nat (n - 2))%nat with (Z.to_nat n) by lia.
Qed.

Lemma fib_number_nonneg (k : nat) : 0 <= fib_number k.
Proof.
  assert (H : 0 <= (fib_pair k).1 /\ 0 <= (fib_pair k).2).
  { induction k as [| k IH]; simpl; [lia |].
    destruct (fib_pair k) as [a b]. simpl in *. lia. }
  apply H.
Qed.

Lemma py_sum_app (l : list Z) (x : Z) : py_sum (l ++ [x]) = py_sum l + x.
Proof. unfold py_sum. by rewrite fold_left_app. Qed.

Lemma py_sum_fib (k : nat) :
  py_sum (fib_number <$> seq 0 k) = fib_number (S k) - 1.
Proof.
  induction k as [| k IH]; [reflexivity |].
  rewrite seq_S, fmap_app.
  change (fib_number <$> [(0 + k)%nat]) with [fib_number k].
  rewrite py_sum_app, IH, fib_number_step. lia.
Qed.

(** X9.  [fibonacci(n)] never raises; it returns [max(n, 0)] numbers, which
    start [0, 1] and from the third on are each the sum of the two before,
    so none is negative. *)
Theorem fibonacci_recurrence (n : Z) :
  exists fib, fibonacci n = Some fib
    /\ length fib = Z.to_nat n
    /\ (1 <= n -> fib !! 0%nat = Some 0)
    /\ (2 <= n -> fib !! 1%nat = Some 1)
    /\ (forall (i : nat) a b, fib !! i = Some a -> fib !! S i = Some b ->
          (S (S i) < Z.to_nat n)%nat -> fib !! S (S i) = Some (a + b))
    /\ Forall (fun x => 0 <= x) fib.
Proof.
  exists (fib_number <$> seq 0 (Z.to_nat n)).
  split; [apply fibonacci_closed_form |].
  split; [by rewrite length_fmap, length_seq |].
  split; [intros Hn; rewrite list_lookup_fmap, lookup_seq_lt by lia; done |].
  split; [intros Hn; rewrite list_lookup_fmap, lookup_seq_lt by lia; done |].
  split.
  - intros i a b Ha Hb Hi.
    rewrite list_lookup_fmap, lookup_seq_lt in Ha, Hb |- * by lia.
    simpl in *. injection Ha as <-. injection Hb as <-.
    rewrite fib_number_step. f_equal. lia.
  - apply Forall_fmap, Forall_forall. intros k _. apply fib_number_nonneg.
Qed.

(** X10.  Asking for more numbers only extends the list: for [m <= n] the
    result of [fibonacci(m)] is the first [m] entries of [fibonacci(n)]. *)
Theorem fibonacci_prefix (m n : Z) :
  m <= n ->
  exists fm fn, fibonacci m = Some fm /\ fibonacci n = Some fn
    /\ fm = take (Z.to_nat m) fn /\ fm `prefix_of` fn.
Proof.
  intros Hmn. exists (fib_number <$> seq 0 (Z.to_nat m)),
    (fib_number <$> seq 0 (Z.to_nat n)).
  split; [apply fibonacci_closed_form |]. split; [apply fibonacci_closed_form |].
  assert (Heq : fib_number <$> seq 0 (Z.to_nat m)
                = take (Z.to_nat m) (fib_number <$> seq 0 (Z.to_nat n))).
  { rewrite <- fmap_take, take_seq. f_equal. f_equal. lia. }
  split; [exact Heq |]. rewrite Heq. apply prefix_take.
Qed.

(** X11.  The sum [main] prints: the numbers of [fibonacci(n)] add up to one
    less than the last number of [fibonacci(n + 2)]. *)
Theorem fibonacci_sum (n : Z) :
  0 <= n ->
  exists fn fn2 last, fibonacci n = Some fn /\ fibonacci (n + 2) = Some fn2
    /\ fn2 !! Z.to_nat (n + 1) = Some last
    /\ py_sum fn = last - 1.
Proof.
  intros Hn. exists (fib_number <$> seq 0 (Z.to_nat n)),
    (fib_number <$> seq 0 (Z.to_nat (n + 2))), (fib_number (S (Z.to_nat n))).
  split; [apply fibonacci_closed_form |]. split; [apply fibonacci_closed_form |].
  split.
  - rewrite list_lookup_fmap, lookup_seq_lt by lia. simpl. do 2 f_equal. lia.
  - apply py_sum_fib.
Qed.

Lemma append_bang_inj (s t : string) : s +:+ "!" = t +:+ "!" -> s = t.
Proof.
  revert t. induction s as [| c s IH]; intros [| d t] Heq; simpl in Heq.
  - done.
  - destruct t; discriminate Heq.
  - destruct s; discriminate Heq.
  - injection Heq as -> Heq. f_equal. by apply IH.
Qed.

(** X12.  A greeting determines the name it was made for, and is eight
    characters longer than the name. *)
Theorem greet_injective (a b : string) :
  (greet a = greet b -> a = b)
  /\ String.length (greet a) = (String.length a + 8)%nat.
Proof.
  split.
  - unfold greet. intros Heq. injection Heq as Heq. by apply append_bang_inj.
  - unfold greet. rewrite !string_length_app. simpl. lia.
Qed.

(** ** Instances *)

Lemma pack_onto_words_witness :
  rgba_ok (unpack 4286595104) /\ pack (unpack 4286595104) = 4286595104.
Proof. apply (pack_onto_words 4286595104). lia. Defined.

Lemma literal_injective_witness : (1, 2, 3, 4) = ((1, 2, 3, 4) : RGBA).
Proof.
  apply (literal_injective (1, 2, 3, 4) (1, 2, 3, 4)).
  - unfold rgba_ok, channel_ok. lia.
  - unfold rgba_ok, channel_ok. lia.
  - reflexivity.
Defined.

Lemma literal_width_witness : String.length (literal (255, 128, 0, 64)) = 10%nat.
Proof. apply (literal_width (255, 128, 0, 64)). unfold rgba_ok, channel_ok. lia. Defined.

Lemma declared_count_matches_witness :
  let img := mkImage 2 2 [(1, 2, 3, 4); (5, 6, 7, 8); (0, 0, 0, 0); (255, 255, 255, 255)] in
  exists literal_rows : list (list string),
    mapM (pack_row (data img) (width img)) (Py.range (height img)) = Some literal_rows
    /\ image_to_c_array_lines img "icon"
       = Some ([comment_line "icon" (width img) (height img);
                "static const uint32_t " +:+ "icon" +:+ "["
                  +:+ Py.str (Z.of_nat (length (concat literal_rows))) +:+ "] = {"]
               ++ ((fun row => "    " +:+ Py.join ", " row +:+ ",") <$> literal_rows)
               ++ ["};"]).
Proof.
  intros img. apply (declared_count_matches img "icon").
  unfold well_formed. simpl. lia.
Defined.

Lemma empty_surface_lines_witness :
  image_to_c_array_lines (mkImage 0 3 []) "icon"
  = Some ([comment_line "icon" 0 3; "static const uint32_t " +:+ "icon" +:+ "[0] = {"]
          ++ replicate (Z.to_nat 3) "    ,"%string ++ ["};"]).
Proof.
  apply (empty_surface_lines (mkImage 0 3 []) "icon").
  - unfold well_formed. simpl. lia.
  - reflexivity.
Defined.

Lemma rendered_pixels_two_valued_witness :
  let entry := mkEntry "toolbar_icon_zoom_in" (@render_zoom_in sample_rasteriser)
                       calls_zoom_in in
  exists img, render entry 24 = Some img
    /\ (forall x y, 0 <= x < 24 -> 0 <= y < 24 ->
          (@covered sample_rasteriser (calls entry 24) x y
           /\ pixel_at img x y = Some (255, 255, 255, 255))
          \/ (@untouched sample_rasteriser (calls entry 24) x y
              /\ pixel_at img x y = Some (0, 0, 0, 0)))
    /\ Forall (fun p => literal p = "0xFFFFFFFF"%string
                        \/ literal p = "0x00000000"%string) (data img).
Proof.
  intros entry. apply (@rendered_pixels_two_valued sample_rasteriser entry 24).
  - unfold catalog. do 4 right. left.
  - lia.
  - unfold accepted. repeat constructor; by eexists.
Defined.

Lemma calls_within_canvas_witness :
  Forall (fun s => on_canvas 24 s /\ box_in_order s) (@run_calls sample_rasteriser 24)
  /\ ~ Forall (on_canvas 14) (calls_chevron_left 14).
Proof. apply (@calls_within_canvas sample_rasteriser 24). lia. Defined.

Lemma fibonacci_prefix_witness :
  exists fm fn, fibonacci 3 = Some fm /\ fibonacci 10 = Some fn
    /\ fm = take (Z.to_nat 3) fn /\ fm `prefix_of` fn.
Proof. apply (fibonacci_prefix 3 10). lia. Defined.

Lemma fibonacci_sum_witness :
  exists fn fn2 last, fibonacci 10 = Some fn /\ fibonacci (10 + 2) = Some fn2
    /\ fn2 !! Z.to_nat (10 + 1) = Some last
    /\ py_sum fn = last - 1.
Proof. apply (fibonacci_sum 10). lia. Defined.

